(** * Mini-DeFi local RAG server and thread benchmark: a shallow embedding

    The two scripts of the repository, [scripts/local_rag_server.py] and
    [scripts/bench_threads.py], are rendered as Rocq functions.  The
    embedding model, the FAISS index, the language model and the file
    system are external: the server takes them as a record of functions,
    each of which returns or raises.  The calls to the embedder, the
    documents, the index search and the language model are appended to
    a call log kept in the state, so that a handler that invoked none
    of them leaves the log as it found it.  Output written with [print]
    is not part of the model. *)

From Stdlib Require Import ZArith QArith Ascii String List Bool Lia.
From Stdlib Require Import DecimalString Sorting.Sorted.
From stdpp Require Import base option list strings gmap.

#[local] Set Warnings "-register-all".
Local Open Scope string_scope.
Local Open Scope Z_scope.

(** ** Python primitives used by both scripts *)

Module Py.

(** Exceptions.  [SystemExit] is what [sys.exit] raises; it is not a
    subclass of [Exception], so [except Exception] lets it through. *)
Inductive exn : Type :=
  | IndexError
  | ZeroDivisionError
  | AttributeError
  | Exception (msg : string)
  | SystemExit (code : Z).

Inductive result (A : Type) : Type :=
  | Ok (a : A)
  | Raise (e : exn).
Arguments Ok {A} a.
Arguments Raise {A} e.

(** [str(e)] for the exceptions above. *)
Definition str_exn (e : exn) : string :=
  match e with
  | IndexError => "list index out of range"
  | ZeroDivisionError => "float division by zero"
  | AttributeError => "'NoneType' object has no attribute 'strip'"
  | Exception msg => msg
  | SystemExit _ => "1"
  end.

(** [except Exception] catches everything but [SystemExit]. *)
Definition is_Exception (e : exn) : bool :=
  match e with
  | SystemExit _ => false
  | _ => true
  end.

(** [l[idx]] on a Python list: a negative index counts from the end, and
    an index outside [-len, len) raises [IndexError]. *)
Definition getitem {A : Type} (l : list A) (idx : Z) : result A :=
  let n := Z.of_nat (List.length l) in
  let pos := if idx <? 0 then idx + n else idx in
  if (pos <? 0) || (n <=? pos) then Raise IndexError
  else match l !! Z.to_nat pos with
       | Some x => Ok x
       | None => Raise IndexError
       end.

(** Characters are Unicode code points below 256, one per [ascii]. *)
Definition newline : ascii := ascii_of_nat 10.
Definition NL : string := String newline "".

(** [c.isspace()] for code points below 256. *)
Definition isspace (c : ascii) : bool :=
  let n := nat_of_ascii c in
  ((9 <=? n) && (n <=? 13) || (28 <=? n) && (n <=? 32)
   || (n =? 133) || (n =? 160))%nat.

Fixpoint lstrip (s : string) : string :=
  match s with
  | EmptyString => EmptyString
  | String c r => if isspace c then lstrip r else s
  end.

(** [rstrip] keeps a character when it is not a space or when something
    remains after it. *)
Fixpoint rstrip (s : string) : string :=
  match s with
  | EmptyString => EmptyString
  | String c r =>
      match rstrip r with
      | EmptyString => if isspace c then EmptyString else String c EmptyString
      | r' => String c r'
      end
  end.

(** [s.strip()] *)
Definition strip (s : string) : string := rstrip (lstrip s).

(** [s.startswith(p)] *)
Definition startswith (p s : string) : bool := String.prefix p s.

(** [s[n:]] *)
Fixpoint drop (n : nat) (s : string) : string :=
  match n, s with
  | O, _ => s
  | S n', String _ r => drop n' r
  | S _, EmptyString => EmptyString
  end.

(** [s.split('\n')]: never empty, [''.split('\n') == ['']]. *)
Fixpoint split_lines (s : string) : list string :=
  match s with
  | EmptyString => [EmptyString]
  | String c r =>
      if Ascii.eqb c newline then EmptyString :: split_lines r
      else match split_lines r with
           | h :: t => String c h :: t
           | [] => [String c EmptyString]
           end
  end.

(** ['\n'.join(lines)] *)
Definition join_lines (lines : list string) : string := String.concat NL lines.

(** [sep.join(parts)] *)
Definition join (sep : string) (parts : list string) : string :=
  String.concat sep parts.

(** [not s] for a string. *)
Definition falsy (s : string) : bool :=
  match s with EmptyString => true | _ => false end.

(** [s.split()]: the maximal runs of non-space characters. *)
Fixpoint words_aux (cur : option string) (s : string) : list string :=
  match s with
  | EmptyString => match cur with Some w => [w] | None => [] end
  | String c r =>
      if isspace c
      then match cur with Some w => w :: words_aux None r | None => words_aux None r end
      else words_aux (Some (match cur with
                            | Some w => w ++ String c EmptyString
                            | None => String c EmptyString
                            end)) r
  end.
Definition split_ws (s : string) : list string := words_aux None s.

(** Whether a string contains a line break, and whether it consists of
    spaces only: the vocabulary of the statements below. *)
Fixpoint has_newline (s : string) : bool :=
  match s with
  | EmptyString => false
  | String c r => Ascii.eqb c newline || has_newline r
  end.

Fixpoint all_space (s : string) : bool :=
  match s with
  | EmptyString => true
  | String c r => isspace c && all_space r
  end.

(** [str(n)] for an int: decimal digits, with a minus sign when negative. *)
Definition str (n : Z) : string := NilZero.string_of_int (Z.to_int n).

End Py.

(** ** scripts/local_rag_server.py *)

Module RagServer.
Import Py.

(** One entry of [KNOWLEDGE_BASE], and one section of a markdown file:
    a dict with the keys ["title"] and ["content"]. *)
Record Doc : Type := { doc_title : string; doc_content : string }.

Inductive Source : Type := builtin | docs.

(** An entry of [chunk_metadata]: [{"title": ..., "source": ...}]. *)
Record Metadata : Type := { meta_title : string; meta_source : Source }.

(** An element of the list [retrieve] returns. *)
Record RetrievalResult : Type :=
  { res_content : string; res_score : Q; res_metadata : Metadata }.

(** The multiplication sign of the knowledge base, code point 215. *)
Definition times_sign : string := String (ascii_of_nat 215) EmptyString.

Definition KNOWLEDGE_BASE : list Doc :=
  [ {| doc_title := "Platform Overview";
       doc_content := "Mini-DeFi is a decentralized lending platform supporting 100+ asset classes. 
Users can deposit assets to earn interest and use as collateral, borrow assets against their collateral,
manage positions across multiple assets with batch operations, and monitor their health factor to avoid liquidation." |}
  ; {| doc_title := "How to Deposit";
       doc_content := "To deposit assets in Mini-DeFi:
1. Connect your wallet by clicking 'Connect Wallet' in the top-right corner
2. Select assets you want to deposit from the Asset Browser (left sidebar)
3. Set proportions for each asset (must total 100%)
4. Enter the total USD amount you want to deposit
5. Click 'Execute Deposit' and confirm the transaction in MetaMask
Tip: Use the 'Equalize' button to split your deposit evenly across selected assets." |}
  ; {| doc_title := "How to Borrow";
       doc_content := "To borrow assets in Mini-DeFi:
1. First, you need deposited assets as collateral
2. Select the assets you want to borrow from the Asset Browser
3. Click the 'Borrow' tab in the Operation Panel
4. Set proportions and enter the amount you want to borrow
5. Click 'Execute Borrow' and confirm in MetaMask
Your borrowing power = Collateral Value " ++ times_sign ++ " Collateral Factor. Keep your Health Factor above 1.0." |}
  ; {| doc_title := "Health Factor Explained";
       doc_content := "Health Factor is a measure of your loan safety in Mini-DeFi.
Formula: Health Factor = (Total Collateral " ++ times_sign ++ " Collateral Factor) / Total Borrows
- Above 1.5: Safe zone (green) - your position is healthy
- 1.0 to 1.5: Caution zone (yellow) - monitor closely
- Below 1.0: Liquidation risk (red) - your position can be liquidated
To improve your Health Factor: add more collateral, repay some debt, or withdraw less." |}
  ; {| doc_title := "Liquidation";
       doc_content := "Liquidation occurs when your Health Factor drops below 1.0.
What happens during liquidation:
- Anyone can repay part of your debt on your behalf
- They receive your collateral at a discount (liquidation bonus, typically 5-10%)
- You lose collateral but your debt is reduced
To avoid liquidation: keep Health Factor above 1.5, monitor asset prices, repay debt if HF drops." |}
  ; {| doc_title := "Interest Rates";
       doc_content := "Interest rates in Mini-DeFi are dynamic and based on utilization (borrowed/deposited ratio).
- Low utilization = Lower interest rates
- High utilization = Higher interest rates
The platform uses a kink model: rates increase gradually until a target utilization, then spike sharply.
Depositors earn interest (supply APY), Borrowers pay interest (borrow APY).
Rates adjust automatically to balance supply and demand." |}
  ; {| doc_title := "Batch Operations";
       doc_content := "Mini-DeFi supports batch operations to save gas and time:
1. Select multiple assets in the Asset Browser (click to toggle selection)
2. Set proportion for each selected asset (must total 100%)
3. Use 'Equalize' button to split amounts evenly
4. Enter total amount and execute
This performs deposits/withdrawals/borrows/repays across all selected assets in fewer transactions." |}
  ; {| doc_title := "Wallet Connection";
       doc_content := "To connect your wallet to Mini-DeFi:
1. Click the 'Connect Wallet' button in the top-right corner
2. Select MetaMask (or your preferred wallet) from the options
3. Approve the connection request in your wallet
Supported networks: Ethereum Mainnet, Polygon, Hardhat Local (for testing).
Make sure you're on the correct network before performing transactions." |}
  ; {| doc_title := "Asset Categories";
       doc_content := "Mini-DeFi supports assets across multiple categories:
- USD Stablecoins: USDC, USDT, DAI, BUSD, etc. (high collateral factor)
- BTC Derivatives: WBTC, renBTC, sBTC, etc.
- ETH Derivatives: WETH, stETH, rETH, cbETH, etc.
- DeFi Tokens: AAVE, UNI, CRV, COMP, MKR, etc.
- Layer 2 Tokens: ARB, OP, MATIC, etc.
- Meme Coins: DOGE, SHIB, PEPE, etc. (lower collateral factor)
Use the category filter in the Asset Browser to find specific asset types." |}
  ; {| doc_title := "Collateral Factor";
       doc_content := "Collateral Factor determines how much you can borrow against an asset.
Range: 50% to 85% depending on asset volatility and liquidity.
Example: If you deposit $1000 USDC with 75% collateral factor, you can borrow up to $750.
Stablecoins typically have higher collateral factors (safer), while volatile assets have lower factors.
The collateral factor is shown for each asset in the Asset Browser." |} ].

Definition SYSTEM_PROMPT : string :=
  "You are a helpful AI assistant for Mini-DeFi, a decentralized lending platform.
Your role is to help users understand and use the platform effectively.

Use the provided context to answer questions accurately. If the context doesn't contain 
relevant information, say so honestly and provide general DeFi guidance.

Keep answers concise, friendly, and actionable. Use bullet points and numbered steps when appropriate.
If users ask about specific transactions, remind them to always verify details in their wallet before confirming.".

(** *** Thread settings *)

(** [set_threads(n)], on [os.environ] as a map from names to values. *)
Definition set_threads (n : Z) (environ : gmap string string)
  : gmap string string :=
  <["NUMEXPR_NUM_THREADS" := str n]>
    (<["OPENBLAS_NUM_THREADS" := str n]>
       (<["MKL_NUM_THREADS" := str n]>
          (<["OMP_NUM_THREADS" := str n]> environ))).

(** *** Markdown documents *)

(** A file of [DOCS_DIR.glob("*.md")]: its stem and what [read_text]
    gives, which may raise. *)
Record MdFile : Type := { md_stem : string; md_read_text : result string }.

(** The local variables of the line loop of [load_markdown_docs]. *)
Record Splitter : Type :=
  { sections : list Doc; current_title : string; current_content : list string }.

(** The [if current_content: sections.append(...)] that runs at a heading
    and after the loop. *)
Definition flush (sp : Splitter) : list Doc :=
  match current_content sp with
  | [] => sections sp
  | _ :: _ =>
      (sections sp ++
       [{| doc_title := current_title sp;
           doc_content := join_lines (current_content sp) |}])%list
  end.

(** The body of [for line in content.split('\n')]. *)
Definition split_step (sp : Splitter) (line : string) : Splitter :=
  if startswith "## " line
  then {| sections := flush sp;
          current_title := strip (drop 3 line);
          current_content := [] |}
  else {| sections := sections sp;
          current_title := current_title sp;
          current_content := (current_content sp ++ [line])%list |}.

(** The sections of one file, from its stem and its text. *)
Definition split_sections (stem content : string) : list Doc :=
  flush (fold_left split_step (split_lines content)
           {| sections := []; current_title := stem; current_content := [] |}).

(** The body of [for md_file in sorted(...)], with its [try]: a file whose
    read raises an [Exception] adds nothing. *)
Definition load_file (f : MdFile) : result (list Doc) :=
  match md_read_text f with
  | Ok content => Ok (split_sections (md_stem f) content)
  | Raise e => if is_Exception e then Ok [] else Raise e
  end.

Fixpoint load_files (acc : list Doc) (files : list MdFile) : result (list Doc) :=
  match files with
  | [] => Ok acc
  | f :: rest =>
      match load_file f with
      | Ok secs => load_files (acc ++ secs)%list rest
      | Raise e => Raise e
      end
  end.

(** [load_markdown_docs()]; the argument is [None] when [DOCS_DIR] does
    not exist, and otherwise the files in the order [sorted] gives. *)
Definition load_markdown_docs (dir : option (list MdFile)) : result (list Doc) :=
  match dir with
  | None => Ok []
  | Some files => load_files [] files
  end.

(** *** Building the two parallel lists *)

(** [f"{doc['title']}\n{content}"] *)
Definition chunk_text (title content : string) : string :=
  title ++ NL ++ content.

(** The body of [for doc in KNOWLEDGE_BASE]. *)
Definition add_builtin (st : list string * list Metadata) (doc : Doc)
  : list string * list Metadata :=
  ((st.1 ++ [chunk_text (doc_title doc) (doc_content doc)])%list,
   (st.2 ++ [{| meta_title := doc_title doc; meta_source := builtin |}])%list).

(** The body of [for doc in md_docs]. *)
Definition add_md_doc (st : list string * list Metadata) (doc : Doc)
  : list string * list Metadata :=
  let content := strip (doc_content doc) in
  if (50 <? String.length content)%nat
  then ((st.1 ++ [chunk_text (doc_title doc) content])%list,
        (st.2 ++ [{| meta_title := doc_title doc; meta_source := docs |}])%list)
  else st.

(** The two loops of [init_vector_store], from the empty lists. *)
Definition build_chunks (kb md_docs : list Doc) : list string * list Metadata :=
  fold_left add_md_doc md_docs (fold_left add_builtin kb ([], [])).

(** What one document contributes, named for the statements below:
    the chunk of a built-in entry, the chunk of a markdown section, the
    metadata entry, and the test of the markdown loop. *)
Definition builtin_chunk (doc : Doc) : string :=
  chunk_text (doc_title doc) (doc_content doc).

Definition md_chunk (doc : Doc) : string :=
  chunk_text (doc_title doc) (strip (doc_content doc)).

Definition metadata_of (src : Source) (doc : Doc) : Metadata :=
  {| meta_title := doc_title doc; meta_source := src |}.

Definition qualifies (doc : Doc) : bool :=
  (50 <? String.length (strip (doc_content doc)))%nat.

Definition chunk_of (src : Source) (doc : Doc) : string :=
  match src with
  | builtin => builtin_chunk doc
  | docs => md_chunk doc
  end.

(** The documents behind the chunk list, each with its source tag. *)
Definition indexed_docs (kb md_docs : list Doc) : list (Source * Doc) :=
  (List.map (pair builtin) kb
     ++ List.map (pair docs) (List.filter qualifies md_docs))%list.

(** *** The retrieval loop *)

(** The body of [for i, idx in enumerate(indices[0])].  The dict display
    evaluates [chunks[idx]], then [scores[0][i]], then
    [chunk_metadata[idx]]. *)
Definition retrieve_step (chunks : list string) (chunk_metadata : list Metadata)
    (scores0 : list Q) (results : list RetrievalResult) (i : nat) (idx : Z)
  : result (list RetrievalResult) :=
  if idx <? Z.of_nat (List.length chunks)
  then match getitem chunks idx with
       | Raise e => Raise e
       | Ok c =>
           match getitem scores0 (Z.of_nat i) with
           | Raise e => Raise e
           | Ok s =>
               match getitem chunk_metadata idx with
               | Raise e => Raise e
               | Ok m =>
                   Ok (results ++
                       [{| res_content := c; res_score := s; res_metadata := m |}])%list
               end
           end
       end
  else Ok results.

Fixpoint retrieve_loop (chunks : list string) (chunk_metadata : list Metadata)
    (scores0 : list Q) (results : list RetrievalResult) (i : nat)
    (indices0 : list Z) : result (list RetrievalResult) :=
  match indices0 with
  | [] => Ok results
  | idx :: rest =>
      match retrieve_step chunks chunk_metadata scores0 results i idx with
      | Ok results' =>
          retrieve_loop chunks chunk_metadata scores0 results' (S i) rest
      | Raise e => Raise e
      end
  end.

(** *** JSON values, requests and responses *)

Inductive json : Type :=
  | JNull
  | JBool (b : bool)
  | JInt (z : Z)
  | JFloat (q : Q)
  | JStr (s : string)
  | JList (l : list json)
  | JObj (fields : list (string * json)).

(** What a handler returns: [jsonify(body), status]. *)
Record Response : Type := { status : Z; body : json }.

(** *** Module state and the external collaborators *)

(** Handles of the two loaded models. *)
Inductive EmbedModel : Type := AllMiniLM.
Inductive Llm : Type := Mistral.

(** The calls to the embedder, the documents, the index search and the
    language model, in the order they happen. *)
Inductive Event : Type :=
  | EvSentenceTransformer
  | EvReadDocs
  | EvEncode (texts : list string)
  | EvSearch (top_k : Z)
  | EvFromPretrained
  | EvLlm (prompt : string).

Section Server.
Context {Vec : Type}.

(** [faiss.IndexFlatIP(d)] and the rows added to it so far. *)
Record Index : Type := { index_d : nat; index_vectors : list Vec }.

(** The module-level globals, and the log of the calls of [Event]. *)
Record State : Type :=
  { llm : option Llm;
    embed_model : option EmbedModel;
    index : option Index;
    chunks : list string;
    chunk_metadata : list Metadata;
    calls : list Event }.

(** The calls into [faiss] that import it and that build and fill the
    index; each either returns or raises. *)
Inductive FaissCall : Type :=
  | FaissImport
  | FaissIndexFlatIP (d : nat)
  | FaissNormalizeL2 (rows : list Vec)
  | FaissAdd (rows : list Vec).

(** The state when the module has just been imported. *)
Definition initial_state : State :=
  {| llm := None; embed_model := None; index := None;
     chunks := []; chunk_metadata := []; calls := [] |}.

(** Everything the script does not define itself.  [faiss] tells
    whether a call into [faiss] returns or raises; [normalize_L2] is
    what [faiss.normalize_L2] makes of one row when it returns. *)
Record Env : Type :=
  { DOCS_DIR : option (list MdFile);
    SentenceTransformer : result EmbedModel;
    encode : list string -> result (list Vec);
    dim : Vec -> nat;
    faiss : FaissCall -> result unit;
    normalize_L2 : Vec -> Vec;
    search : Index -> list Vec -> Z -> result (list Q * list Z);
    model_path_exists : bool;
    from_pretrained : result Llm;
    llm_call : list Event -> string -> result string }.

(** State and exceptions: a raised exception keeps the state reached. *)
Definition M (A : Type) : Type := State -> result A * State.

Definition ret {A : Type} (a : A) : M A := fun s => (Ok a, s).

Definition bind {A B : Type} (m : M A) (k : A -> M B) : M B :=
  fun s => match m s with
           | (Ok a, s') => k a s'
           | (Raise e, s') => (Raise e, s')
           end.

Definition raise {A : Type} (e : exn) : M A := fun s => (Raise e, s).
Definition get : M State := fun s => (Ok s, s).
Definition put (s' : State) : M unit := fun _ => (Ok tt, s').
Definition lift {A : Type} (r : result A) : M A := fun s => (r, s).

(** [try: m except Exception as e: h(e)] *)
Definition try_except {A : Type} (m : M A) (h : exn -> M A) : M A :=
  fun s => match m s with
           | (Ok a, s') => (Ok a, s')
           | (Raise e, s') => if is_Exception e then h e s' else (Raise e, s')
           end.

Definition log (ev : Event) : M unit :=
  fun s => (Ok tt,
            {| llm := llm s; embed_model := embed_model s; index := index s;
               chunks := chunks s; chunk_metadata := chunk_metadata s;
               calls := (calls s ++ [ev])%list |}).

Definition set_embed_model (m : EmbedModel) : M unit :=
  fun s => (Ok tt,
            {| llm := llm s; embed_model := Some m; index := index s;
               chunks := chunks s; chunk_metadata := chunk_metadata s;
               calls := calls s |}).

Definition set_llm (l : Llm) : M unit :=
  fun s => (Ok tt,
            {| llm := Some l; embed_model := embed_model s; index := index s;
               chunks := chunks s; chunk_metadata := chunk_metadata s;
               calls := calls s |}).

Definition set_index (ix : Index) : M unit :=
  fun s => (Ok tt,
            {| llm := llm s; embed_model := embed_model s; index := Some ix;
               chunks := chunks s; chunk_metadata := chunk_metadata s;
               calls := calls s |}).

Definition set_chunks (st : list string * list Metadata) : M unit :=
  fun s => (Ok tt,
            {| llm := llm s; embed_model := embed_model s; index := index s;
               chunks := st.1; chunk_metadata := st.2;
               calls := calls s |}).

Notation "x <- c1 ;; c2" := (bind c1 (fun x => c2))
  (at level 100, c1 at next level, right associativity).
Notation "c1 ;;; c2" := (bind c1 (fun _ => c2))
  (at level 100, right associativity).

Variable E : Env.

Definition init_embedding_model : M EmbedModel :=
  s <- get ;;
  match embed_model s with
  | Some m => ret m
  | None =>
      log EvSentenceTransformer ;;;
      m <- lift (SentenceTransformer E) ;;
      set_embed_model m ;;;
      ret m
  end.

(** [embeddings.shape[1]]: the width of the rows. *)
Definition shape1 (embeddings : list Vec) : result nat :=
  match embeddings with
  | [] => Raise IndexError
  | v :: _ => Ok (dim E v)
  end.

(** [init_vector_store()].  [index] is assigned as soon as
    [IndexFlatIP(d)] returns, before the rows are normalised and added:
    the index is empty until [add] returns. *)
Definition init_vector_store : M Index :=
  s <- get ;;
  match index s with
  | Some ix => ret ix
  | None =>
      lift (faiss E FaissImport) ;;;
      model <- init_embedding_model ;;
      let st1 := fold_left add_builtin KNOWLEDGE_BASE ([], []) in
      set_chunks st1 ;;;
      log EvReadDocs ;;;
      md_docs <- lift (load_markdown_docs (DOCS_DIR E)) ;;
      let st2 := fold_left add_md_doc md_docs st1 in
      set_chunks st2 ;;;
      log (EvEncode st2.1) ;;;
      embeddings <- lift (encode E st2.1) ;;
      d <- lift (shape1 embeddings) ;;
      lift (faiss E (FaissIndexFlatIP d)) ;;;
      set_index {| index_d := d; index_vectors := [] |} ;;;
      lift (faiss E (FaissNormalizeL2 embeddings)) ;;;
      let embeddings := List.map (normalize_L2 E) embeddings in
      lift (faiss E (FaissAdd embeddings)) ;;;
      let ix := {| index_d := d; index_vectors := embeddings |} in
      set_index ix ;;;
      ret ix
  end.

Definition retrieve (query : string) (top_k : Z) : M (list RetrievalResult) :=
  s <- get ;;
  match index s with
  | None => init_vector_store ;;; ret tt
  | Some _ => ret tt
  end ;;;
  model <- init_embedding_model ;;
  log (EvEncode [query]) ;;;
  query_embedding <- lift (encode E [query]) ;;
  lift (faiss E FaissImport) ;;;
  lift (faiss E (FaissNormalizeL2 query_embedding)) ;;;
  let query_embedding := List.map (normalize_L2 E) query_embedding in
  s <- get ;;
  match index s with
  | None => raise AttributeError
  | Some ix =>
      log (EvSearch top_k) ;;;
      found <- lift (search E ix query_embedding top_k) ;;
      lift (retrieve_loop (chunks s) (chunk_metadata s) found.1 [] 0 found.2)
  end.

Definition init_llm : M Llm :=
  s <- get ;;
  match llm s with
  | Some l => ret l
  | None =>
      if model_path_exists E
      then log EvFromPretrained ;;;
           l <- lift (from_pretrained E) ;;
           set_llm l ;;;
           ret l
      else raise (SystemExit 1)
  end.

(** The f-string of [generate_response]. *)
Definition build_prompt (query : string) (context_chunks : list RetrievalResult)
  : string :=
  let context :=
    join (NL ++ NL ++ "---" ++ NL ++ NL) (List.map res_content context_chunks) in
  "<s>[INST] " ++ SYSTEM_PROMPT ++ NL ++ NL ++
  "Context from knowledge base:" ++ NL ++ context ++ NL ++ NL ++
  "User question: " ++ query ++ " [/INST]".

Definition generate_response (query : string)
    (context_chunks : list RetrievalResult) : M string :=
  s <- get ;;
  match llm s with
  | None => init_llm ;;; ret tt
  | Some _ => ret tt
  end ;;;
  let prompt := build_prompt query context_chunks in
  s <- get ;;
  match llm s with
  | None => raise AttributeError
  | Some _ =>
      log (EvLlm prompt) ;;;
      response <- lift (llm_call E (calls s) prompt) ;;
      ret (strip response)
  end.

(** [data.get(key, "").strip()]: only a string has [strip]. *)
Definition get_stripped (data : gmap string json) (key : string) : result string :=
  match data !! key with
  | None => Ok (strip "")
  | Some (JStr s) => Ok (strip s)
  | Some _ => Raise AttributeError
  end.

Definition error_body (msg : string) : json := JObj [("error", JStr msg)].

(** The [/chat] handler, on the parsed JSON object of the request. *)
Definition chat (data : gmap string json) : M Response :=
  query <- lift (get_stripped data "message") ;;
  if falsy query
  then ret {| status := 400; body := error_body "No message provided" |}
  else
    try_except
      (context_chunks <- retrieve query 3 ;;
       response <- generate_response query context_chunks ;;
       ret {| status := 200;
              body := JObj
                [("response", JStr response);
                 ("sources",
                  JList (List.map (fun c => JStr (meta_title (res_metadata c)))
                           context_chunks))] |})
      (fun e => ret {| status := 500; body := error_body (str_exn e) |}).

(** What the script relies on from its collaborators, and the states it
    runs in: the vocabulary of the statements on [retrieve] below. *)

(** [IndexFlatIP.search] returns two arrays of the same width. *)
Definition index_widths : Prop :=
  forall ix q k found, search E ix q k = Ok found ->
    List.length found.1 = List.length found.2.

(** The labels of [IndexFlatIP.search] are stored positions or the
    filler [-1]. *)
Definition index_labels : Prop :=
  forall ix q k found, search E ix q k = Ok found ->
    Forall (fun idx => -1 <= idx) found.2.

(** [encode] returns one row per text. *)
Definition encoder_contract : Prop :=
  forall texts rows, encode E texts = Ok rows ->
    List.length rows = List.length texts.

(** The states the module can be in between two calls: no index yet, or
    an index with its two parallel, non-empty lists. *)
Definition store_ready (s : State) : Prop :=
  index s = None \/
  (chunks s <> [] /\
   List.length (chunk_metadata s) = List.length (chunks s)).

(** [e] was raised by one of the calls [retrieve] makes to the outside:
    loading the embedder, reading the documents, encoding, a call into
    [faiss], searching. *)
Definition external_failure (top_k : Z) (e : exn) : Prop :=
  SentenceTransformer E = Raise e \/
  load_markdown_docs (DOCS_DIR E) = Raise e \/
  (exists texts, encode E texts = Raise e) \/
  (exists call, faiss E call = Raise e) \/
  (exists ix q, search E ix q top_k = Raise e).

(** [m] leaves the part of the state read by [f] as it found it,
    whether it returns or raises. *)
Definition keeps {X A : Type} (f : State -> X) (m : M A) : Prop :=
  forall s, f (m s).2 = f s.

(** The globals without the call log. *)
Definition globals (s : State)
  : option Llm * option EmbedModel * option Index
    * list string * list Metadata :=
  (llm s, embed_model s, index s, chunks s, chunk_metadata s).

(** The three calls that open the [try] block of [__main__], before
    [app.run]. *)
Definition initialize : M unit :=
  init_embedding_model ;;;
  init_vector_store ;;;
  init_llm ;;;
  ret tt.

End Server.

Arguments Index : clear implicits.
Arguments FaissCall : clear implicits.
Arguments State : clear implicits.
Arguments Env : clear implicits.

End RagServer.

(** ** scripts/bench_threads.py *)

Module BenchThreads.
Import Py.

Local Open Scope Q_scope.

(** The dict [benchmark] returns.  A Python float is modelled as the
    rational it denotes; every float operation rounds its exact result
    to the nearest double ([round64]).  Infinities and NaN are not
    modelled: the durations and their sums stay far below the largest
    double. *)
Record Stats : Type :=
  { threads : Z; avg_time : Q; min_time : Q; max_time : Q; avg_speed : Q }.

(** What the outside world does for one thread count: loading the model
    (giving [load_time]), the warm-up call, and the [i]-th timed call,
    which gives the measured [dt] and [result["choices"][0]["text"]]. *)
Record Trial : Type :=
  { Llama : result Q;
    warmup : result unit;
    timed_run : nat -> result (Q * string) }.

(** Whether [2^e <= n/d], for [d > 0]. *)
Definition pow2_le (e n d : Z) : bool :=
  (if 0 <=? e then d * 2 ^ e <=? n else d <=? n * 2 ^ (- e))%Z.

(** [floor(log2(n/d))] for [n, d > 0]. *)
Definition ilog2 (n d : Z) : Z :=
  let e := (Z.log2 n - Z.log2 d)%Z in
  if pow2_le e n d then e else (e - 1)%Z.

(** The integer nearest to [a/b], the even one on a tie, for [b > 0]. *)
Definition nearest_even (a b : Z) : Z :=
  let q := (a / b)%Z in
  let r := (a mod b)%Z in
  if (2 * r <? b)%Z then q
  else if (b <? 2 * r)%Z then (q + 1)%Z
  else if Z.even q then q else (q + 1)%Z.

(** The double nearest to a rational, ties to even: 53 significant
    bits, with the exponent of the last bit at least -1074. *)
Definition round64 (x : Q) : Q :=
  let n := Z.abs (Qnum x) in
  let d := Zpos (Qden x) in
  if (n =? 0)%Z then 0
  else
    let p := Z.max (ilog2 n d - 52) (-1074) in
    let k := if (0 <=? p)%Z then nearest_even n (d * 2 ^ p)
             else nearest_even (n * 2 ^ (- p)) d in
    let m := (Z.sgn (Qnum x) * k)%Z in
    if (0 <=? p)%Z then inject_Z (m * 2 ^ p)
    else Qred (m # Z.to_pos (2 ^ (- p))).

(** [x / y] with a float on either side, and [a / b] on two ints: the
    quotient rounded to a double; it raises when [y] is zero. *)
Definition truediv (x y : Q) : result Q :=
  if Qeq_bool y 0 then Raise ZeroDivisionError else Ok (round64 (x / y)).

(** [sum(xs)] on floats: added from left to right, with a rounding after
    each addition (CPython 3.12 and later compensate the rounding
    errors instead). *)
Definition sum (xs : list Q) : Q :=
  fold_left (fun acc x => round64 (acc + x)) xs 0.

(** [sum(xs)] on ints, which is exact. *)
Definition sum_int (xs : list Q) : Q := fold_left Qplus xs 0.

(** [x < y] on floats. *)
Definition Qltb (x y : Q) : bool := negb (Qle_bool y x).

(** [min(xs)] and [max(xs)]: the first extremal element; [ValueError] on
    an empty list. *)
Definition py_min (xs : list Q) : result Q :=
  match xs with
  | [] => Raise (Exception "min() arg is an empty sequence")
  | x :: rest => Ok (fold_left (fun m y => if Qltb y m then y else m) rest x)
  end.

Definition py_max (xs : list Q) : result Q :=
  match xs with
  | [] => Raise (Exception "max() arg is an empty sequence")
  | x :: rest => Ok (fold_left (fun m y => if Qltb m y then y else m) rest x)
  end.

(** The body of [for i in range(runs)], on the pair
    [(times, tokens_list)]; the [print] divides [tokens] by [dt]. *)
Definition run_step (T : Trial) (acc : list Q * list Q) (i : nat)
  : result (list Q * list Q) :=
  match timed_run T i with
  | Raise e => Raise e
  | Ok (dt, output_text) =>
      let tokens := inject_Z (Z.of_nat (List.length (split_ws output_text))) in
      match truediv tokens dt with
      | Raise e => Raise e
      | Ok _ => Ok ((acc.1 ++ [dt])%list, (acc.2 ++ [tokens])%list)
      end
  end.

Fixpoint run_loop (T : Trial) (acc : list Q * list Q) (range : list nat)
  : result (list Q * list Q) :=
  match range with
  | [] => Ok acc
  | i :: rest =>
      match run_step T acc i with
      | Ok acc' => run_loop T acc' rest
      | Raise e => Raise e
      end
  end.

(** [len(xs)] as a float divisor. *)
Definition len (xs : list Q) : Q := inject_Z (Z.of_nat (List.length xs)).

Definition benchmark (T : Trial) (n_threads : Z) (runs : Z) : result Stats :=
  match Llama T with
  | Raise e => Raise e
  | Ok load_time =>
  match warmup T with
  | Raise e => Raise e
  | Ok _ =>
  match run_loop T ([], []) (seq 0 (Z.to_nat runs)) with
  | Raise e => Raise e
  | Ok (times, tokens_list) =>
  match truediv (sum times) (len times) with
  | Raise e => Raise e
  | Ok avg_time =>
  match truediv (sum_int tokens_list) (len tokens_list) with
  | Raise e => Raise e
  | Ok avg_tokens =>
  match truediv avg_tokens avg_time with
  | Raise e => Raise e
  | Ok avg_speed =>
  match py_min times with
  | Raise e => Raise e
  | Ok mn =>
  match py_max times with
  | Raise e => Raise e
  | Ok mx =>
      Ok {| threads := n_threads; avg_time := avg_time;
            min_time := mn; max_time := mx; avg_speed := avg_speed |}
  end end end end end end end end.

Definition thread_counts : list Z := [4; 6; 8; 10; 12]%Z.

(** [for n in thread_counts: try: ... except Exception: ...] *)
Fixpoint run_benchmarks (world : Z -> Trial) (runs : Z) (results : list Stats)
    (counts : list Z) : result (list Stats) :=
  match counts with
  | [] => Ok results
  | n :: rest =>
      match benchmark (world n) n runs with
      | Ok r => run_benchmarks world runs (results ++ [r])%list rest
      | Raise e =>
          if is_Exception e then run_benchmarks world runs results rest
          else Raise e
      end
  end.

(** The body of [for r in results] in the summary. *)
Definition pick_best (best : option Stats) (r : Stats) : option Stats :=
  match best with
  | None => Some r
  | Some b => if Qltb (avg_time r) (avg_time b) then Some r else Some b
  end.

(** The script from "Run benchmarks" on: the summary list and [best]. *)
Definition main (world : Z -> Trial) (runs : Z)
  : result (list Stats * option Stats) :=
  match run_benchmarks world runs [] thread_counts with
  | Raise e => Raise e
  | Ok results => Ok (results, fold_left pick_best results None)
  end.

(** The candidates that completed, in the order of the loop: the
    vocabulary of the summary statement. *)
Definition succeeded (world : Z -> Trial) (runs : Z) (counts : list Z)
  : list Stats :=
  flat_map (fun n => match benchmark (world n) n runs with
                     | Ok r => [r]
                     | Raise _ => []
                     end) counts.

End BenchThreads.

(** ** Concrete collaborators

    Instances of the external collaborators, on which the statements
    below are evaluated. *)

Module Scenarios.
Import Py RagServer.

(** The lowest finite float32, [-(2^128 - 2^104)]: the score
    [IndexFlatIP.search] reports for a position it could not fill. *)
Definition FLT_LOWEST : Q := - (340282346638528859811704183484516925440 # 1).

(** A stand-in for [IndexFlatIP.search] on one query: the stored
    positions in order with scores [1, 1 - 1/n, ...], and every column
    beyond the stored count filled with the label [-1] and the score
    [FLT_LOWEST], as FAISS does when [k] exceeds [ntotal]. *)
Definition flat_search (ix : Index string) (q : list string) (k : Z)
  : result (list Q * list Z) :=
  if k <=? 0 then Raise (Exception "k > 0")
  else
    let n := List.length (index_vectors ix) in
    let found := seq 0 (Nat.min n (Z.to_nat k)) in
    let missing := (Z.to_nat k - n)%nat in
    Ok ((List.map (fun j => 1 - (Z.of_nat j # Pos.of_nat n))%Q found
           ++ repeat FLT_LOWEST missing)%list,
        (List.map Z.of_nat found ++ repeat (-1) missing)%list).

(** Each text stands for its own embedding; no [rag_docs] directory. *)
Definition faiss_env : Env string :=
  {| DOCS_DIR := None;
     SentenceTransformer := Ok AllMiniLM;
     encode := fun texts => Ok texts;
     dim := fun _ => 384%nat;
     faiss := fun _ => Ok tt;
     normalize_L2 := fun v => v;
     search := flat_search;
     model_path_exists := true;
     from_pretrained := Ok Mistral;
     llm_call := fun _ _ => Ok "Deposit assets, then borrow against them." |}.

(** A [rag_docs] directory with one file, [guide.md]: a short
    introduction, a section that is long enough and one that is not. *)
Definition guide_md : string :=
  "# Guide" ++ NL ++
  NL ++
  "## Flash loans" ++ NL ++
  "A flash loan is borrowed and repaid within a single transaction, with no collateral." ++ NL ++
  NL ++
  "## Fees" ++ NL ++
  "ok".

Definition docs_env : Env string :=
  {| DOCS_DIR := Some [{| md_stem := "guide"; md_read_text := Ok guide_md |};
                       {| md_stem := "locked";
                          md_read_text := Raise (Exception "Permission denied") |}];
     SentenceTransformer := Ok AllMiniLM;
     encode := fun texts => Ok texts;
     dim := fun _ => 384%nat;
     faiss := fun _ => Ok tt;
     normalize_L2 := fun v => v;
     search := flat_search;
     model_path_exists := true;
     from_pretrained := Ok Mistral;
     llm_call := fun _ _ => Ok "Deposit assets, then borrow against them." |}.


(** [readme.md]: an introduction of more than 50 characters, then two
    second-level headings, each with a body of more than 50 characters. *)
Definition readme_intro : string :=
  "Notes on the lending pools of Mini-DeFi, collected from the team wiki.".
Definition readme_body1 : string :=
  "Deposits earn the supply rate from the block after they are confirmed.".
Definition readme_body2 : string :=
  "Borrows accrue interest at the borrow rate of the asset, per block.".
Definition readme_md : string :=
  readme_intro ++ NL ++
  "## Deposits" ++ NL ++ readme_body1 ++ NL ++
  "## Borrows" ++ NL ++ readme_body2.


(** A language model whose completion is white space only. *)
Definition blank_llm_env : Env string :=
  {| DOCS_DIR := None;
     SentenceTransformer := Ok AllMiniLM;
     encode := fun texts => Ok texts;
     dim := fun _ => 384%nat;
     faiss := fun _ => Ok tt;
     normalize_L2 := fun v => v;
     search := flat_search;
     model_path_exists := true;
     from_pretrained := Ok Mistral;
     llm_call := fun _ _ => Ok ("  " ++ NL) |}.

(** Request bodies. *)
Definition blank_request : gmap string json := {[ "message" := JStr "   " ]}.
Definition borrow_request : gmap string json :=
  {[ "message" := JStr " How do I borrow? " ]}.


(** A benchmark session: the model fails to load with 4 threads, the
    second timed call fails with 10 threads, and the other three thread
    counts complete. *)
Definition lab_trial (load : result Q) (dts : list Q)
  : BenchThreads.Trial :=
  {| BenchThreads.Llama := load;
     BenchThreads.warmup := Ok tt;
     BenchThreads.timed_run := fun i =>
       match dts !! i with
       | Some dt => Ok (dt, "Lending pools let users deposit and borrow.")
       | None => Raise (Exception "llama_decode failed")
       end |}.

Definition lab_world (n : Z) : BenchThreads.Trial :=
  if n =? 4 then lab_trial (Raise (Exception "failed to load model")) []
  else if n =? 6 then lab_trial (Ok 1.5%Q) [2.0%Q; 3.0%Q; 4.0%Q]
  else if n =? 8 then lab_trial (Ok 1.5%Q) [1.0%Q; 2.0%Q; 3.0%Q]
  else if n =? 10 then lab_trial (Ok 1.5%Q) [1.0%Q]
  else lab_trial (Ok 1.5%Q) [3.0%Q; 3.0%Q; 3.0%Q].


(** An index that ranks the third chunk first and reports a tie between
    the first two. *)
Definition ranked_env : Env string :=
  {| DOCS_DIR := None;
     SentenceTransformer := Ok AllMiniLM;
     encode := fun texts => Ok texts;
     dim := fun _ => 384%nat;
     faiss := fun _ => Ok tt;
     normalize_L2 := fun v => v;
     search := fun _ _ _ => Ok ([0.75%Q; 0.5%Q; 0.5%Q], [2; 0; 1]);
     model_path_exists := true;
     from_pretrained := Ok Mistral;
     llm_call := fun _ _ => Ok "Deposit assets, then borrow against them." |}.


(** An embedder that fails on every batch. *)
Definition offline_env : Env string :=
  {| DOCS_DIR := None;
     SentenceTransformer := Ok AllMiniLM;
     encode := fun _ => Raise (Exception "embedding backend unavailable");
     dim := fun _ => 384%nat;
     faiss := fun _ => Ok tt;
     normalize_L2 := fun v => v;
     search := flat_search;
     model_path_exists := true;
     from_pretrained := Ok Mistral;
     llm_call := fun _ _ => Ok "Deposit assets, then borrow against them." |}.

(** An index that cannot take the rows: [add] raises. *)
Definition add_fails_env : Env string :=
  {| DOCS_DIR := None;
     SentenceTransformer := Ok AllMiniLM;
     encode := fun texts => Ok texts;
     dim := fun _ => 384%nat;
     faiss := fun call =>
       match call with
       | FaissAdd _ => Raise (Exception "add failed")
       | _ => Ok tt
       end;
     normalize_L2 := fun v => v;
     search := flat_search;
     model_path_exists := true;
     from_pretrained := Ok Mistral;
     llm_call := fun _ _ => Ok "Deposit assets, then borrow against them." |}.

(** No model file under [models/]. *)
Definition no_model_env : Env string :=
  {| DOCS_DIR := None;
     SentenceTransformer := Ok AllMiniLM;
     encode := fun texts => Ok texts;
     dim := fun _ => 384%nat;
     faiss := fun _ => Ok tt;
     normalize_L2 := fun v => v;
     search := flat_search;
     model_path_exists := false;
     from_pretrained := Ok Mistral;
     llm_call := fun _ _ => Ok "Deposit assets, then borrow against them." |}.

(** A request whose message is [null]. *)
Definition null_request : gmap string json := {[ "message" := JNull ]}.


(** A session in which the clock does not advance during the second
    timed call with 6 threads, and 8 and 12 threads tie. *)
Definition tie_world (n : Z) : BenchThreads.Trial :=
  if n =? 4 then lab_trial (Ok 1.5%Q) [3.0%Q; 3.0%Q]
  else if n =? 6 then lab_trial (Ok 1.5%Q) [2.0%Q; 0.0%Q]
  else if n =? 8 then lab_trial (Ok 1.5%Q) [2.0%Q; 2.0%Q]
  else if n =? 10 then lab_trial (Ok 1.5%Q) [2.5%Q; 2.5%Q]
  else lab_trial (Ok 1.5%Q) [1.0%Q; 3.0%Q].


(** The doubles written [0.1], [0.2] and [0.3]. *)
Definition double_0_1 : Q := 3602879701896397 # 36028797018963968.
Definition double_0_2 : Q := 3602879701896397 # 18014398509481984.
Definition double_0_3 : Q := 5404319552844595 # 18014398509481984.

(** A session in which 4 and 6 threads measure the same three durations
    in opposite orders, and no other thread count loads. *)
Definition rounding_world (n : Z) : BenchThreads.Trial :=
  if n =? 4 then lab_trial (Ok 1.5%Q) [double_0_1; double_0_2; double_0_3]
  else if n =? 6 then lab_trial (Ok 1.5%Q) [double_0_3; double_0_2; double_0_1]
  else lab_trial (Raise (Exception "failed to load model")) [].

End Scenarios.

(** * Properties *)

(** ** Facts about the Python primitives *)

Module PyFacts.
Import Py.

Lemma getitem_nonneg {A} (l : list A) (idx : Z) :
  0 <= idx ->
  getitem l idx =
    match l !! Z.to_nat idx with Some x => Ok x | None => Raise IndexError end.
Proof.
  intros Hidx. unfold getitem.
  destruct (idx <? 0) eqn:Hneg; [apply Z.ltb_lt in Hneg; lia|].
  destruct (idx <? 0) eqn:H0; [apply Z.ltb_lt in H0; lia|]. simpl.
  destruct (Z.of_nat (List.length l) <=? idx) eqn:Hle; [|reflexivity].
  apply Z.leb_le in Hle.
  rewrite (lookup_ge_None_2 l (Z.to_nat idx)); [reflexivity|lia].
Qed.

Lemma getitem_wraps {A} (l : list A) (idx : Z) :
  idx < 0 -> - Z.of_nat (List.length l) <= idx ->
  getitem l idx =
    match l !! Z.to_nat (Z.of_nat (List.length l) + idx) with
    | Some x => Ok x
    | None => Raise IndexError
    end.
Proof.
  intros Hneg Hlow. unfold getitem.
  destruct (idx <? 0) eqn:H0; [|apply Z.ltb_ge in H0; lia].
  destruct (idx + Z.of_nat (List.length l) <? 0) eqn:H1;
    [apply Z.ltb_lt in H1; lia|].
  destruct (Z.of_nat (List.length l) <=? idx + Z.of_nat (List.length l)) eqn:H2;
    [apply Z.leb_le in H2; lia|].
  simpl. now rewrite Z.add_comm.
Qed.

Lemma getitem_below {A} (l : list A) (idx : Z) :
  idx < - Z.of_nat (List.length l) -> getitem l idx = Raise IndexError.
Proof.
  intros Hlow. unfold getitem.
  destruct (idx <? 0) eqn:H0; [|apply Z.ltb_ge in H0; lia].
  destruct (idx + Z.of_nat (List.length l) <? 0) eqn:H1; [reflexivity|].
  apply Z.ltb_ge in H1. lia.
Qed.

Lemma getitem_Ok_inv {A} (l : list A) (idx : Z) (x : A) :
  getitem l idx = Ok x ->
  exists pos : nat, (pos < List.length l)%nat /\ l !! pos = Some x /\
    Z.of_nat pos = if idx <? 0 then idx + Z.of_nat (List.length l) else idx.
Proof.
  unfold getitem.
  set (pos := if idx <? 0 then idx + Z.of_nat (List.length l) else idx).
  destruct (pos <? 0) eqn:H1; [discriminate|].
  destruct (Z.of_nat (List.length l) <=? pos) eqn:H2; [discriminate|]. simpl.
  apply Z.ltb_ge in H1. apply Z.leb_gt in H2.
  destruct (l !! Z.to_nat pos) as [y|] eqn:Hy; [|discriminate].
  intros [= ->]. exists (Z.to_nat pos). split; [lia|]. split; [exact Hy|lia].
Qed.

Lemma split_lines_nonempty (s : string) : split_lines s <> [].
Proof.
  destruct s as [|c r]; simpl; [discriminate|].
  destruct (Ascii.eqb c newline); [discriminate|].
  destruct (split_lines r); discriminate.
Qed.

Lemma split_lines_single (x : string) :
  has_newline x = false -> split_lines x = [x].
Proof.
  induction x as [|c r IH]; simpl; [reflexivity|].
  destruct (Ascii.eqb c newline); [discriminate|].
  intros H. now rewrite (IH H).
Qed.

Lemma split_lines_cons (x rest : string) :
  has_newline x = false ->
  split_lines (x ++ String newline rest) = x :: split_lines rest.
Proof.
  induction x as [|c r IH]; simpl.
  - intros _. reflexivity.
  - destruct (Ascii.eqb c newline); [discriminate|].
    intros H. now rewrite (IH H).
Qed.

Lemma split_lines_join_lines (lines : list string) :
  lines <> [] ->
  forallb (fun l => negb (has_newline l)) lines = true ->
  split_lines (join_lines lines) = lines.
Proof.
  induction lines as [|x rest IH]; [congruence|].
  intros _ Hall. simpl in Hall. apply andb_true_iff in Hall as [Hx Hrest].
  apply negb_true_iff in Hx.
  destruct rest as [|y rest'].
  - simpl. now apply split_lines_single.
  - change (join_lines (x :: y :: rest'))
      with (x ++ String newline (join_lines (y :: rest'))).
    rewrite split_lines_cons by exact Hx.
    rewrite IH; [reflexivity|discriminate|exact Hrest].
Qed.

Lemma lstrip_all_space (s : string) : all_space s = true -> lstrip s = "".
Proof.
  induction s as [|c r IH]; simpl; [reflexivity|].
  destruct (isspace c); [exact IH|discriminate].
Qed.

Lemma strip_all_space (s : string) : all_space s = true -> strip s = "".
Proof. intros H. unfold strip. now rewrite lstrip_all_space. Qed.

Lemma rstrip_idem (s : string) : rstrip (rstrip s) = rstrip s.
Proof.
  induction s as [|c r IH]; simpl; [reflexivity|].
  destruct (rstrip r) as [|c' r'] eqn:Hr.
  - destruct (isspace c) eqn:Hc; simpl; [reflexivity|now rewrite Hc].
  - simpl. simpl in IH. destruct (rstrip r') as [|c'' r''] eqn:Hr'.
    + destruct (isspace c') eqn:Hc'; [discriminate|]. now rewrite IH.
    + now rewrite IH.
Qed.

Lemma lstrip_idem (s : string) : lstrip (lstrip s) = lstrip s.
Proof.
  induction s as [|c r IH]; simpl; [reflexivity|].
  destruct (isspace c) eqn:Hc; [exact IH|]. simpl. now rewrite Hc.
Qed.

Lemma lstrip_head (s : string) :
  match lstrip s with
  | EmptyString => True
  | String c _ => isspace c = false
  end.
Proof.
  induction s as [|c r IH]; simpl; [exact I|].
  destruct (isspace c) eqn:Hc; [exact IH|exact Hc].
Qed.

Lemma lstrip_strip (s : string) : lstrip (strip s) = strip s.
Proof.
  unfold strip. pose proof (lstrip_head s) as Hh.
  destruct (lstrip s) as [|c r]; [reflexivity|].
  simpl. destruct (rstrip r); rewrite ?Hh; simpl; rewrite ?Hh; reflexivity.
Qed.

Lemma rstrip_strip (s : string) : rstrip (strip s) = strip s.
Proof. unfold strip. apply rstrip_idem. Qed.

End PyFacts.

(** ** The retrieval loop *)

Module RetrieveFacts.
Import Py PyFacts RagServer Scenarios.

Section Loop.
Variables (chunks : list string) (chunk_metadata : list Metadata).
Variable scores0 : list Q.
Hypothesis parallel : List.length chunk_metadata = List.length chunks.

Abbreviation step := (retrieve_step chunks chunk_metadata scores0).
Abbreviation loop := (retrieve_loop chunks chunk_metadata scores0).

(** The guard does what it is written for: a label at or beyond the
    chunk count adds nothing. *)
Lemma retrieve_step_skips (results : list RetrievalResult) (i : nat) (idx : Z) :
  Z.of_nat (List.length chunks) <= idx -> step results i idx = Ok results.
Proof using Type.
  clear parallel.
  intros Hhigh. unfold retrieve_step.
  destruct (idx <? Z.of_nat (List.length chunks)) eqn:Hlt; [|reflexivity].
  apply Z.ltb_lt in Hlt. lia.
Qed.

(** A label below [-len(chunks)] passes the guard and the lookup raises. *)
Lemma retrieve_step_below (results : list RetrievalResult) (i : nat) (idx : Z) :
  idx < - Z.of_nat (List.length chunks) -> step results i idx = Raise IndexError.
Proof using Type.
  clear parallel.
  intros Hlow. unfold retrieve_step.
  destruct (idx <? Z.of_nat (List.length chunks)) eqn:Hlt;
    [|apply Z.ltb_ge in Hlt; lia].
  now rewrite getitem_below.
Qed.

(** A step either leaves the results alone or appends one result, whose
    text and metadata sit at one list position below the chunk count. *)
Lemma retrieve_step_Ok_inv (results rs : list RetrievalResult) (i : nat) (idx : Z) :
  step results i idx = Ok rs ->
  rs = results \/
  exists (pos : nat) c s m,
    (pos < List.length chunks)%nat /\ chunks !! pos = Some c /\
    chunk_metadata !! pos = Some m /\ scores0 !! i = Some s /\
    rs = (results ++
          [{| res_content := c; res_score := s; res_metadata := m |}])%list.
Proof using parallel.
  unfold retrieve_step.
  destruct (idx <? Z.of_nat (List.length chunks)) eqn:Hlt;
    [|intros [= <-]; now left].
  apply Z.ltb_lt in Hlt.
  destruct (getitem chunks idx) as [c|] eqn:Hc; [|discriminate].
  destruct (getitem scores0 (Z.of_nat i)) as [s|] eqn:Hs; [|discriminate].
  destruct (getitem chunk_metadata idx) as [m|] eqn:Hm; [|discriminate].
  intros [= <-]. right.
  apply getitem_Ok_inv in Hc as (pos & Hpos & Hc & Hposc).
  apply getitem_Ok_inv in Hm as (pos' & Hpos' & Hm & Hposm).
  rewrite getitem_nonneg in Hs by lia. rewrite Nat2Z.id in Hs.
  destruct (scores0 !! i) as [s'|] eqn:Hs'; [|discriminate].
  injection Hs as ->.
  exists pos, c, s, m. repeat split; try assumption.
  assert (pos' = pos) as <-; [|exact Hm].
  rewrite parallel in Hposm. lia.
Qed.

Lemma retrieve_loop_length (ids : list Z) :
  forall (results rs : list RetrievalResult) (i : nat),
  loop results i ids = Ok rs ->
  (List.length rs <= List.length results + List.length ids)%nat.
Proof using Type.
  clear parallel.
  induction ids as [|idx rest IH]; intros results rs i; simpl.
  - intros [= <-]. lia.
  - destruct (step results i idx) as [results'|] eqn:Hstep; [|discriminate].
    intros Hloop. apply IH in Hloop.
    assert (List.length results' <= S (List.length results))%nat; [|lia].
    unfold retrieve_step in Hstep.
    destruct (idx <? _); [|injection Hstep as <-; lia].
    destruct (getitem chunks idx); [|discriminate].
    destruct (getitem scores0 _); [|discriminate].
    destruct (getitem chunk_metadata idx); [|discriminate].
    injection Hstep as <-. rewrite List.length_app. simpl. lia.
Qed.

(** Every result the loop adds comes from a list position below the
    chunk count, with the score of some column. *)
Lemma retrieve_loop_positions (ids : list Z) :
  forall (results rs : list RetrievalResult) (i : nat),
  loop results i ids = Ok rs ->
  exists added, rs = (results ++ added)%list /\
    Forall (fun r => exists (pos j : nat),
              (pos < List.length chunks)%nat /\
              chunks !! pos = Some (res_content r) /\
              chunk_metadata !! pos = Some (res_metadata r) /\
              scores0 !! j = Some (res_score r)) added.
Proof using parallel.
  induction ids as [|idx rest IH]; intros results rs i; simpl.
  - intros [= <-]. exists []. split; [now rewrite app_nil_r|constructor].
  - destruct (step results i idx) as [results'|] eqn:Hstep; [|discriminate].
    intros Hloop. apply IH in Hloop as (added & -> & Hall).
    apply retrieve_step_Ok_inv in Hstep
      as [->|(pos & c & s & m & Hpos & Hc & Hm & Hs & ->)].
    + now exists added.
    + eexists (_ :: added). split; [now rewrite <- app_assoc|].
      constructor; [|exact Hall]. exists pos, i. simpl. auto.
Qed.

End Loop.

(** C3.  With the ten built-in chunks and [top_k = 11], the eleventh
    column of the index is a filler, label [-1] with the lowest float as
    score.  [retrieve] returns it as an eleventh result, the last chunk
    with a score far below [-1]. *)
Theorem retrieve_returns_filler_score :
  exists rs r,
    (retrieve faiss_env "how to borrow" 11 initial_state).1 = Ok rs /\
    List.length rs = 11%nat /\
    last rs = Some r /\
    res_score r = FLT_LOWEST /\
    (res_score r < -1)%Q /\
    meta_title (res_metadata r) = "Collateral Factor".
Proof.
  eexists. eexists. split; [vm_compute; reflexivity|].
  split; [reflexivity|]. split; [reflexivity|].
  split; [reflexivity|]. split; [reflexivity|reflexivity].
Qed.

End RetrieveFacts.

(** ** The document store and the index build *)

Module StoreFacts.
Import Py PyFacts RagServer Scenarios.

Lemma fold_add_builtin (kb : list Doc) :
  forall st : list string * list Metadata,
  fold_left add_builtin kb st =
    ((st.1 ++ List.map builtin_chunk kb)%list,
     (st.2 ++ List.map (metadata_of builtin) kb)%list).
Proof.
  induction kb as [|doc rest IH]; intros [cs ms]; simpl.
  - now rewrite !app_nil_r.
  - rewrite IH. simpl. now rewrite <- !app_assoc.
Qed.

Lemma fold_add_md_doc (md_docs : list Doc) :
  forall st : list string * list Metadata,
  fold_left add_md_doc md_docs st =
    ((st.1 ++ List.map md_chunk (List.filter qualifies md_docs))%list,
     (st.2 ++ List.map (metadata_of docs) (List.filter qualifies md_docs))%list).
Proof.
  induction md_docs as [|doc rest IH]; intros [cs ms]; simpl.
  - now rewrite !app_nil_r.
  - rewrite IH. unfold add_md_doc, qualifies.
    destruct (50 <? String.length (strip (doc_content doc)))%nat; simpl.
    + now rewrite <- !app_assoc.
    + reflexivity.
Qed.

(** The two lists after both loops: built-in entries first, then the
    qualifying sections, in order. *)
Lemma build_chunks_eq (kb md_docs : list Doc) :
  build_chunks kb md_docs =
    ((List.map builtin_chunk kb
        ++ List.map md_chunk (List.filter qualifies md_docs))%list,
     (List.map (metadata_of builtin) kb
        ++ List.map (metadata_of docs) (List.filter qualifies md_docs))%list).
Proof.
  unfold build_chunks. rewrite fold_add_builtin, fold_add_md_doc. reflexivity.
Qed.

Section Build.
Context {Vec : Type} (E : Env Vec).

(** A call with the index already built returns it and touches nothing. *)
Lemma init_vector_store_built (s : State Vec) (ix : Index Vec) :
  index s = Some ix -> init_vector_store E s = (Ok ix, s).
Proof.
  intros Hix. unfold init_vector_store, bind, get, ret. now rewrite Hix.
Qed.

(** What a successful build from scratch leaves behind. *)
Lemma init_vector_store_fresh (s s' : State Vec) (ix : Index Vec) :
  index s = None ->
  init_vector_store E s = (Ok ix, s') ->
  exists md_docs embeddings d,
    load_markdown_docs (DOCS_DIR E) = Ok md_docs /\
    encode E (build_chunks KNOWLEDGE_BASE md_docs).1 = Ok embeddings /\
    shape1 E embeddings = Ok d /\
    ix = {| index_d := d;
            index_vectors := List.map (normalize_L2 E) embeddings |} /\
    chunks s' = (build_chunks KNOWLEDGE_BASE md_docs).1 /\
    chunk_metadata s' = (build_chunks KNOWLEDGE_BASE md_docs).2 /\
    index s' = Some ix.
Proof.
  intros Hnone. unfold init_vector_store, build_chunks.
  generalize KNOWLEDGE_BASE as kb. intros kb.
  unfold bind at 1, get. rewrite Hnone. unfold bind at 1, lift at 1.
  destruct (faiss E FaissImport) as [[]|e]; [|discriminate].
  unfold bind at 1.
  destruct (init_embedding_model E s) as [[model|e] s1] eqn:Hmodel;
    [|discriminate].
  unfold bind, set_chunks, log, lift, set_index, ret. simpl.
  destruct (load_markdown_docs (DOCS_DIR E)) as [md_docs|e] eqn:Hdocs;
    [|discriminate].
  destruct (encode E (fold_left add_md_doc md_docs
                        (fold_left add_builtin kb ([], []))).1)
    as [embeddings|e] eqn:Henc; [|discriminate].
  destruct (shape1 E embeddings) as [d|e] eqn:Hd; [|discriminate].
  destruct (faiss E (FaissIndexFlatIP d)) as [[]|e]; [|discriminate].
  destruct (faiss E (FaissNormalizeL2 embeddings)) as [[]|e]; [|discriminate].
  destruct (faiss E (FaissAdd _)) as [[]|e]; [|discriminate].
  intros [= <- <-]. exists md_docs, embeddings, d. simpl. auto 10.
Qed.

End Build.

Lemma lookup_map {A B : Type} (f : A -> B) (l : list A) (i : nat) :
  List.map f l !! i = f <$> (l !! i).
Proof. exact (list_lookup_fmap f l i). Qed.

Lemma build_chunks_indexed (kb md_docs : list Doc) :
  build_chunks kb md_docs =
    (List.map (fun p => chunk_of p.1 p.2) (indexed_docs kb md_docs),
     List.map (fun p => metadata_of p.1 p.2) (indexed_docs kb md_docs)).
Proof.
  rewrite build_chunks_eq. unfold indexed_docs.
  rewrite !List.map_app, !List.map_map. reflexivity.
Qed.

(** C4.  When the build completes, the chunk list and the metadata list
    have the same length, the number of knowledge-base entries plus the
    number of markdown sections whose trimmed body is longer than 50; the
    index holds as many vectors; and at every position the chunk text,
    the metadata entry and the vector come from the same document. *)
Theorem init_vector_store_parallel {Vec : Type} (E : Env Vec)
    (embed : string -> Vec) (s s' : State Vec) (ix : Index Vec) :
  (forall texts rows, encode E texts = Ok rows -> rows = List.map embed texts) ->
  index s = None ->
  init_vector_store E s = (Ok ix, s') ->
  exists md_docs,
    load_markdown_docs (DOCS_DIR E) = Ok md_docs /\
    List.length (chunks s') = List.length (chunk_metadata s') /\
    List.length (chunks s') =
      (List.length KNOWLEDGE_BASE
       + List.length (List.filter qualifies md_docs))%nat /\
    index s' = Some ix /\
    List.length (index_vectors ix) = List.length (chunks s') /\
    forall N : nat, (N < List.length (chunks s'))%nat ->
      exists (src : Source) (doc : Doc),
        chunks s' !! N = Some (chunk_of src doc) /\
        chunk_metadata s' !! N = Some (metadata_of src doc) /\
        index_vectors ix !! N =
          Some (normalize_L2 E (embed (chunk_of src doc))).
Proof.
  intros Hrows Hnone Hrun.
  destruct (init_vector_store_fresh E s s' ix Hnone Hrun)
    as (md_docs & embeddings & d & Hdocs & Henc & _ & -> & Hc & Hm & Hix).
  apply Hrows in Henc. subst embeddings.
  rewrite build_chunks_indexed in *. cbn [fst snd] in *.
  exists md_docs. rewrite Hc, Hm. cbn [index_vectors].
  rewrite !List.length_map.
  split; [exact Hdocs|]. split; [reflexivity|].
  split; [unfold indexed_docs; now rewrite List.length_app, !List.length_map|].
  split; [exact Hix|]. split; [reflexivity|].
  intros N HN.
  destruct (lookup_lt_is_Some_2 (indexed_docs KNOWLEDGE_BASE md_docs) N HN)
    as [[src doc] Hdoc].
  exists src, doc. rewrite !lookup_map, Hdoc. simpl. auto.
Qed.

Lemma init_vector_store_parallel_witness :
  exists md_docs,
    load_markdown_docs (DOCS_DIR docs_env) = Ok md_docs /\
    List.length (List.filter qualifies md_docs) = 1%nat /\
    List.length (chunks (init_vector_store docs_env initial_state).2) = 11%nat.
Proof.
  destruct (init_vector_store docs_env initial_state) as [r s'] eqn:Hrun.
  assert (exists ix, r = Ok ix) as [ix ->].
  { vm_compute in Hrun. injection Hrun as <- _. eexists. reflexivity. }
  destruct (init_vector_store_parallel docs_env (fun t => t)
              initial_state s' ix)
    as (md_docs & Hdocs & _ & Hlen & _).
  - intros texts rows [= <-]. symmetry. apply List.map_id.
  - reflexivity.
  - exact Hrun.
  - exists md_docs. split; [exact Hdocs|].
    vm_compute in Hdocs. injection Hdocs as <-.
    split; [reflexivity|]. simpl. rewrite Hlen. reflexivity.
Defined.

(** C7.  Once the index is built, [init_vector_store] returns it and
    leaves every global and the call log as they are; so a second call
    after a successful one changes nothing, and the index keeps its
    size. *)
Theorem init_vector_store_idempotent {Vec : Type} (E : Env Vec)
    (s s' : State Vec) (ix : Index Vec) :
  init_vector_store E s = (Ok ix, s') ->
  index s' = Some ix /\
  init_vector_store E s' = (Ok ix, s') /\
  (forall t : State Vec, index t = Some ix -> init_vector_store E t = (Ok ix, t)).
Proof.
  intros Hrun.
  assert (index s' = Some ix) as Hbuilt.
  { destruct (index s) as [ix0|] eqn:Hix.
    - rewrite (init_vector_store_built E s ix0 Hix) in Hrun.
      injection Hrun as <- <-. exact Hix.
    - destruct (init_vector_store_fresh E s s' ix Hix Hrun)
        as (_ & _ & _ & _ & _ & _ & _ & _ & _ & H). exact H. }
  split; [exact Hbuilt|]. split.
  - now apply init_vector_store_built.
  - intros t. apply init_vector_store_built.
Qed.

Lemma init_vector_store_idempotent_witness :
  let s1 := (init_vector_store docs_env initial_state).2 in
  let s2 := (init_vector_store docs_env s1).2 in
  s2 = s1 /\ List.length (chunks s2) = 11%nat.
Proof.
  destruct (init_vector_store docs_env initial_state) as [r s1] eqn:Hrun.
  assert (exists ix, r = Ok ix /\ List.length (chunks s1) = 11%nat)
    as (ix & -> & Hlen).
  { vm_compute in Hrun. injection Hrun as <- <-. eexists. split; reflexivity. }
  destruct (init_vector_store_idempotent docs_env initial_state s1 ix Hrun)
    as (_ & Hagain & _).
  simpl. rewrite Hagain. simpl. split; [reflexivity|exact Hlen].
Defined.

End StoreFacts.

(** ** Markdown sections *)

Module MarkdownFacts.
Import Py PyFacts RagServer Scenarios StoreFacts.

(** Lines that are not headings pile up in [current_content]. *)
Lemma fold_split_step_body (body : list string) :
  forall sp : Splitter,
  forallb (fun l => negb (startswith "## " l)) body = true ->
  fold_left split_step body sp =
    {| sections := sections sp;
       current_title := current_title sp;
       current_content := (current_content sp ++ body)%list |}.
Proof.
  induction body as [|l rest IH]; intros [secs t c] Hbody; simpl.
  - now rewrite app_nil_r.
  - simpl in Hbody. apply andb_true_iff in Hbody as [Hl Hrest].
    apply negb_true_iff in Hl.
    unfold split_step at 2. rewrite Hl. rewrite IH by exact Hrest.
    simpl. now rewrite <- app_assoc.
Qed.

(** A heading line flushes what was gathered and starts a section. *)
Lemma split_step_heading (sp : Splitter) (t : string) :
  split_step sp ("## " ++ t) =
    {| sections := flush sp; current_title := strip t; current_content := [] |}.
Proof. unfold split_step, startswith. destruct t; reflexivity. Qed.

Lemma fold_left_app_cons {A B : Type} (f : A -> B -> A) (l1 l2 : list B)
    (x : B) (a : A) :
  fold_left f (l1 ++ x :: l2) a = fold_left f l2 (f (fold_left f l1 a) x).
Proof. now rewrite List.fold_left_app. Qed.

(** C5.  A markdown section whose trimmed body has at most 50 characters
    adds nothing to either list; one whose trimmed body is longer adds
    its chunk and its metadata entry in place; and a file that is a
    heading followed by ["ok"] gives no chunk. *)
Theorem short_section_excluded (kb pre post : list Doc) (doc : Doc) :
  ((String.length (strip (doc_content doc)) <= 50)%nat ->
   build_chunks kb (pre ++ doc :: post) = build_chunks kb (pre ++ post)) /\
  ((50 < String.length (strip (doc_content doc)))%nat ->
   build_chunks kb (pre ++ doc :: post) =
     (((build_chunks kb pre).1
         ++ md_chunk doc :: List.map md_chunk (List.filter qualifies post))%list,
      ((build_chunks kb pre).2
         ++ metadata_of docs doc
            :: List.map (metadata_of docs) (List.filter qualifies post))%list)) /\
  split_sections "fees" ("## Fees" ++ NL ++ "ok")
    = [{| doc_title := "Fees"; doc_content := "ok" |}] /\
  build_chunks kb (split_sections "fees" ("## Fees" ++ NL ++ "ok"))
    = build_chunks kb [].
Proof.
  split; [|split; [|split]].
  - intros Hshort.
    assert (qualifies doc = false) as Hq.
    { unfold qualifies. apply Nat.ltb_ge. exact Hshort. }
    rewrite !build_chunks_eq, !List.filter_app. cbn [List.filter].
    now rewrite Hq.
  - intros Hlong.
    assert (qualifies doc = true) as Hq.
    { unfold qualifies. apply Nat.ltb_lt. exact Hlong. }
    rewrite !build_chunks_eq, !List.filter_app. cbn [List.filter fst snd].
    rewrite Hq, !List.map_app. cbn [List.map].
    now rewrite <- !app_assoc.
  - reflexivity.
  - rewrite !build_chunks_eq. reflexivity.
Qed.

Lemma short_section_excluded_witness :
  build_chunks KNOWLEDGE_BASE
    ([{| doc_title := "Intro"; doc_content := "   " |}]
       ++ {| doc_title := "Fees"; doc_content := "ok" |} :: [])
  = build_chunks KNOWLEDGE_BASE
      ([{| doc_title := "Intro"; doc_content := "   " |}] ++ []) /\
  (build_chunks [] ([] ++ {| doc_title := "Deposits";
                             doc_content := readme_body1 |} :: [])).1
  = [chunk_text "Deposits" readme_body1].
Proof.
  split.
  - destruct (short_section_excluded KNOWLEDGE_BASE
                [{| doc_title := "Intro"; doc_content := "   " |}] []
                {| doc_title := "Fees"; doc_content := "ok" |})
      as (Hshort & _).
    apply Hshort. vm_compute. lia.
  - destruct (short_section_excluded [] [] []
                {| doc_title := "Deposits"; doc_content := readme_body1 |})
      as (_ & Hlong & _).
    rewrite Hlong; [reflexivity|].
    vm_compute. lia.
Defined.

(** The sections of a file whose lines are [pre], a heading, [b1], a
    second heading and [b2], none of the other lines being a heading. *)
Lemma split_sections_two_headings (stem t1 t2 : string)
    (pre b1 b2 : list string) :
  forallb (fun l => negb (has_newline l))
    (pre ++ ("## " +:+ t1) :: b1 ++ ("## " +:+ t2) :: b2)%list = true ->
  forallb (fun l => negb (startswith "## " l)) pre = true ->
  forallb (fun l => negb (startswith "## " l)) b1 = true ->
  forallb (fun l => negb (startswith "## " l)) b2 = true ->
  split_sections stem
    (join_lines (pre ++ ("## " +:+ t1) :: b1 ++ ("## " +:+ t2) :: b2)%list) =
  flush {| sections :=
             flush {| sections :=
                        flush {| sections := []; current_title := stem;
                                 current_content := pre |};
                      current_title := strip t1;
                      current_content := b1 |};
           current_title := strip t2;
           current_content := b2 |}.
Proof.
  intros Hnl Hpre Hb1 Hb2. unfold split_sections.
  rewrite split_lines_join_lines; [|now destruct pre|exact Hnl].
  rewrite fold_left_app_cons, (fold_split_step_body pre) by exact Hpre.
  rewrite split_step_heading.
  rewrite fold_left_app_cons, (fold_split_step_body b1) by exact Hb1.
  rewrite split_step_heading.
  rewrite (fold_split_step_body b2) by exact Hb2.
  reflexivity.
Qed.

(** C6, as amended.  A file with two second-level headings, whose text
    before the first heading trims to at most 50 characters and whose two
    bodies trim to more than 50, gives exactly two chunks: each is the
    trimmed heading text, a line break and the trimmed body, with the
    trimmed heading text as title.  The sections behind them are what
    the heading lines and the end of the file flush. *)
Theorem two_heading_file_chunks (stem t1 t2 : string)
    (pre b1 b2 : list string) :
  forallb (fun l => negb (has_newline l))
    (pre ++ ("## " +:+ t1) :: b1 ++ ("## " +:+ t2) :: b2)%list = true ->
  forallb (fun l => negb (startswith "## " l)) (pre ++ b1 ++ b2)%list = true ->
  (String.length (strip (join_lines pre)) <= 50)%nat ->
  (50 < String.length (strip (join_lines b1)))%nat ->
  (50 < String.length (strip (join_lines b2)))%nat ->
  let content :=
    join_lines (pre ++ ("## " +:+ t1) :: b1 ++ ("## " +:+ t2) :: b2)%list in
  split_sections stem content =
    (match pre with
     | [] => []
     | _ :: _ => [{| doc_title := stem; doc_content := join_lines pre |}]
     end ++
     [{| doc_title := strip t1; doc_content := join_lines b1 |};
      {| doc_title := strip t2; doc_content := join_lines b2 |}])%list /\
  build_chunks [] (split_sections stem content) =
    ([chunk_text (strip t1) (strip (join_lines b1));
      chunk_text (strip t2) (strip (join_lines b2))],
     [{| meta_title := strip t1; meta_source := docs |};
      {| meta_title := strip t2; meta_source := docs |}]).
Proof.
  intros Hnl Hbody Hpre Hb1 Hb2 content.
  rewrite !forallb_app in Hbody.
  apply andb_true_iff in Hbody as [Hhpre Hbody].
  apply andb_true_iff in Hbody as [Hhb1 Hhb2].
  assert (split_sections stem content =
    (match pre with
     | [] => []
     | _ :: _ => [{| doc_title := stem; doc_content := join_lines pre |}]
     end ++
     [{| doc_title := strip t1; doc_content := join_lines b1 |};
      {| doc_title := strip t2; doc_content := join_lines b2 |}])%list)
    as Hsecs.
  { unfold content.
    rewrite split_sections_two_headings by assumption.
    destruct b1 as [|l1 b1']; [simpl in Hb1; lia|].
    destruct b2 as [|l2 b2']; [simpl in Hb2; lia|].
    destruct pre; reflexivity. }
  split; [exact Hsecs|].
  rewrite Hsecs, build_chunks_eq. cbn [List.map app].
  assert (qualifies {| doc_title := strip t1; doc_content := join_lines b1 |}
          = true) as Hq1 by (apply Nat.ltb_lt; exact Hb1).
  assert (qualifies {| doc_title := strip t2; doc_content := join_lines b2 |}
          = true) as Hq2 by (apply Nat.ltb_lt; exact Hb2).
  destruct pre as [|l pre'].
  - cbn [app List.filter]. rewrite Hq1, Hq2. reflexivity.
  - assert (qualifies {| doc_title := stem;
                         doc_content := join_lines (l :: pre') |} = false)
      as Hq0 by (apply Nat.ltb_ge; exact Hpre).
    cbn [app List.filter]. rewrite Hq0, Hq1, Hq2. reflexivity.
Qed.

Lemma two_heading_file_chunks_witness :
  (build_chunks []
     (split_sections "readme"
        (join_lines ([""; "# Readme"]
                       ++ ("## " +:+ " Deposits ") :: [readme_body1; ""]
                       ++ ("## " +:+ "Borrows") :: [""; readme_body2])%list))).1
  = [chunk_text "Deposits" readme_body1; chunk_text "Borrows" readme_body2].
Proof.
  destruct (two_heading_file_chunks "readme" " Deposits " "Borrows"
              [""; "# Readme"] [readme_body1; ""] [""; readme_body2])
    as [_ Hchunks];
    [reflexivity | reflexivity | vm_compute; lia | vm_compute; lia
     | vm_compute; lia |].
  rewrite Hchunks. reflexivity.
Defined.

(** C6, as stated, fails: [readme.md] has exactly two second-level
    headings, each followed by a body of more than 50 characters, and it
    gives three chunks, the first one titled with the file stem. *)
Lemma two_headings_three_chunks :
  split_lines readme_md =
    [readme_intro; "## Deposits"; readme_body1; "## Borrows"; readme_body2] /\
  List.filter (startswith "## ") (split_lines readme_md) =
    ["## Deposits"; "## Borrows"] /\
  (50 < String.length readme_body1)%nat /\
  (50 < String.length readme_body2)%nat /\
  List.map meta_title (build_chunks [] (split_sections "readme" readme_md)).2 =
    ["readme"; "Deposits"; "Borrows"] /\
  List.length (build_chunks [] (split_sections "readme" readme_md)).1 <> 2%nat.
Proof.
  split; [reflexivity|]. split; [reflexivity|].
  split; [vm_compute; lia|]. split; [vm_compute; lia|].
  split; [reflexivity|]. vm_compute. discriminate.
Qed.

End MarkdownFacts.

(** ** The chat endpoint *)

Module ChatFacts.
Import Py PyFacts RagServer Scenarios RetrieveFacts.

Section Handlers.
Context {Vec : Type} (E : Env Vec).

Lemma bind_Ok_inv {A B : Type} (m : M A) (k : A -> M B)
    (s s2 : State Vec) (b : B) :
  bind m k s = (Ok b, s2) ->
  exists a s1, m s = (Ok a, s1) /\ k a s1 = (Ok b, s2).
Proof.
  unfold bind. destruct (m s) as [[a|e] s1]; [|discriminate].
  intros H. now exists a, s1.
Qed.

Lemma bind_Ok {A B : Type} (m : M A) (k : A -> M B)
    (s s1 : State Vec) (a : A) :
  m s = (Ok a, s1) -> bind m k s = k a s1.
Proof. intros H. unfold bind. now rewrite H. Qed.

(** A successful [retrieve] ran the loop on what [search] reported. *)
Lemma retrieve_Ok_inv (query : string) (top_k : Z) (s s1 : State Vec)
    (rs : list RetrievalResult) :
  retrieve E query top_k s = (Ok rs, s1) ->
  exists (sq : State Vec) (ix : Index Vec) (q : list Vec) found,
    index sq = Some ix /\
    search E ix q top_k = Ok found /\
    retrieve_loop (chunks sq) (chunk_metadata sq) found.1 [] 0 found.2 = Ok rs.
Proof.
  unfold retrieve. intros H.
  apply bind_Ok_inv in H as (s0 & s0' & _ & H).
  apply bind_Ok_inv in H as (_ & sa & _ & H).
  apply bind_Ok_inv in H as (model & sb & _ & H).
  apply bind_Ok_inv in H as (_ & sc & _ & H).
  apply bind_Ok_inv in H as (qe & sd0 & _ & H).
  apply bind_Ok_inv in H as (_ & sd1 & _ & H).
  apply bind_Ok_inv in H as (_ & sd & _ & H).
  apply bind_Ok_inv in H as (sq & sq' & Hget & H).
  injection Hget as <- <-.
  destruct (index sd) as [ix|] eqn:Hix; [|discriminate].
  apply bind_Ok_inv in H as (_ & se & _ & H).
  apply bind_Ok_inv in H as (found & sf & Hsearch & H).
  unfold lift in Hsearch, H. injection Hsearch as Hsearch _.
  injection H as H _.
  exists sd, ix, (List.map (normalize_L2 E) qe), found. auto.
Qed.

(** A successful [generate_response] returns a trimmed completion of
    the prompt built from the query and the chunks. *)
Lemma generate_response_Ok_inv (query : string)
    (context_chunks : list RetrievalResult) (s s1 : State Vec)
    (response : string) :
  generate_response E query context_chunks s = (Ok response, s1) ->
  exists (history : list Event) (completion : string),
    llm_call E history (build_prompt query context_chunks) = Ok completion /\
    response = strip completion.
Proof.
  unfold generate_response. intros H.
  apply bind_Ok_inv in H as (s0 & s0' & _ & H).
  apply bind_Ok_inv in H as (_ & sa & _ & H).
  apply bind_Ok_inv in H as (sb & sb' & Hget & H).
  injection Hget as <- <-.
  destruct (llm sa) as [l|]; [|discriminate].
  apply bind_Ok_inv in H as (_ & sc & _ & H).
  apply bind_Ok_inv in H as (completion & sd & Hcall & H).
  unfold lift in Hcall. injection Hcall as Hcall _.
  unfold ret in H. injection H as <- _.
  now exists (calls sa), completion.
Qed.

End Handlers.

(** C8.  A [/chat] request whose ["message"] is missing, empty or white
    space only is answered with status 400 and the error "No message
    provided"; the state, call log included, is the one before the
    request, so nothing was loaded, embedded, searched or generated. *)
Theorem chat_rejects_blank_message {Vec : Type} (E : Env Vec)
    (data : gmap string json) (s : State Vec) :
  data !! "message" = None \/
  (exists m, data !! "message" = Some (JStr m) /\ all_space m = true) ->
  chat E data s =
    (Ok {| status := 400;
           body := JObj [("error", JStr "No message provided")] |}, s).
Proof.
  intros Hblank. unfold chat, get_stripped.
  assert (match data !! "message" with
          | None => Ok (strip "")
          | Some (JStr m) => Ok (strip m)
          | Some _ => Raise AttributeError
          end = Ok "") as ->.
  { destruct Hblank as [->|(m & -> & Hm)]; [reflexivity|].
    now rewrite strip_all_space. }
  reflexivity.
Qed.

Lemma chat_rejects_blank_message_witness :
  chat faiss_env blank_request initial_state =
    (Ok {| status := 400;
           body := JObj [("error", JStr "No message provided")] |},
     initial_state) /\
  calls (chat faiss_env blank_request initial_state).2 = [].
Proof.
  assert (chat faiss_env blank_request initial_state =
          (Ok {| status := 400;
                 body := JObj [("error", JStr "No message provided")] |},
           initial_state)) as H.
  { apply chat_rejects_blank_message. right. exists "   ".
    split; [vm_compute; reflexivity|reflexivity]. }
  split; [exact H|]. rewrite H. reflexivity.
Defined.

(** C9, as amended.  When the message is not blank and retrieval and
    generation succeed, the answer has status 200; its [response] is the
    completion with leading and trailing white space removed, which may
    be empty; its [sources] are the titles of the retrieved chunks, one
    per chunk and in retrieval order; and there are at most 3 of them
    when the index reports at most [top_k] labels. *)
Theorem chat_response_and_sources {Vec : Type} (E : Env Vec)
    (data : gmap string json) (message : string) (s s1 s2 : State Vec)
    (context_chunks : list RetrievalResult) (response : string) :
  (forall ix q k found,
     search E ix q k = Ok found -> (List.length found.2 <= Z.to_nat k)%nat) ->
  data !! "message" = Some (JStr message) ->
  strip message <> "" ->
  retrieve E (strip message) 3 s = (Ok context_chunks, s1) ->
  generate_response E (strip message) context_chunks s1 = (Ok response, s2) ->
  let sources :=
    List.map (fun c => meta_title (res_metadata c)) context_chunks in
  chat E data s =
    (Ok {| status := 200;
           body := JObj [("response", JStr response);
                         ("sources", JList (List.map JStr sources))] |}, s2) /\
  (exists history completion,
     llm_call E history (build_prompt (strip message) context_chunks)
       = Ok completion /\
     response = strip completion) /\
  lstrip response = response /\ rstrip response = response /\
  List.length sources = List.length context_chunks /\
  (List.length context_chunks <= 3)%nat.
Proof.
  intros Hk Hmsg Hquery Hretr Hgen sources.
  destruct (generate_response_Ok_inv E _ _ _ _ _ Hgen)
    as (history & completion & Hcall & ->).
  split; [|split; [|split; [|split; [|split]]]].
  - unfold chat, get_stripped. rewrite Hmsg.
    unfold bind at 1, lift.
    assert (falsy (strip message) = false) as ->
      by (destruct (strip message); [congruence|reflexivity]).
    unfold try_except.
    rewrite (bind_Ok (retrieve E (strip message) 3) _ s s1 context_chunks Hretr).
    rewrite (bind_Ok (generate_response E (strip message) context_chunks)
               _ s1 s2 (strip completion) Hgen).
    unfold ret, sources. now rewrite List.map_map.
  - now exists history, completion.
  - apply lstrip_strip.
  - apply rstrip_strip.
  - unfold sources. apply List.length_map.
  - destruct (retrieve_Ok_inv E _ _ _ _ _ Hretr)
      as (sq & ix & q & found & _ & Hsearch & Hloop).
    apply retrieve_loop_length in Hloop. apply Hk in Hsearch.
    simpl in Hloop. lia.
Qed.

Lemma chat_response_and_sources_witness :
  (chat faiss_env borrow_request initial_state).1 =
    Ok {| status := 200;
          body := JObj
            [("response", JStr "Deposit assets, then borrow against them.");
             ("sources", JList [JStr "Platform Overview";
                                JStr "How to Deposit";
                                JStr "How to Borrow"])] |}.
Proof.
  destruct (retrieve faiss_env (strip " How do I borrow? ") 3 initial_state)
    as [r s1] eqn:Hretr.
  assert (exists context_chunks,
            r = Ok context_chunks /\
            List.map (fun c => meta_title (res_metadata c)) context_chunks =
              ["Platform Overview"; "How to Deposit"; "How to Borrow"])
    as (context_chunks & -> & Htitles).
  { vm_compute in Hretr. injection Hretr as <- _. eexists.
    split; reflexivity. }
  destruct (generate_response faiss_env (strip " How do I borrow? ")
              context_chunks s1) as [g s2] eqn:Hgen.
  assert (g = Ok "Deposit assets, then borrow against them.") as ->.
  { vm_compute in Hretr. injection Hretr as <- <-.
    vm_compute in Hgen. injection Hgen as <- _. reflexivity. }
  destruct (chat_response_and_sources faiss_env borrow_request
              " How do I borrow? " initial_state s1 s2 context_chunks
              "Deposit assets, then borrow against them.")
    as (Hchat & _).
  - intros ix q k found. unfold faiss_env, search, flat_search.
    destruct (k <=? 0); [discriminate|]. intros [= <-]. simpl.
    rewrite List.length_app, List.length_map, List.length_seq,
      List.repeat_length. lia.
  - vm_compute. reflexivity.
  - vm_compute. discriminate.
  - exact Hretr.
  - exact Hgen.
  - rewrite Hchat. simpl. rewrite Htitles. reflexivity.
Defined.

(** C9, as stated, fails: the message is not blank, retrieval and
    generation succeed, and the [response] of the answer is the empty
    string. *)
Lemma chat_empty_response :
  (chat blank_llm_env borrow_request initial_state).1 =
    Ok {| status := 200;
          body := JObj
            [("response", JStr "");
             ("sources", JList [JStr "Platform Overview";
                                JStr "How to Deposit";
                                JStr "How to Borrow"])] |}.
Proof. vm_compute. reflexivity. Qed.

End ChatFacts.

(** ** The thread benchmark *)

Module BenchFacts.
Import Py BenchThreads Scenarios.

Local Open Scope Q_scope.

Lemma Qltb_true (x y : Q) : Qltb x y = true -> x < y.
Proof.
  unfold Qltb. intros H. apply negb_true_iff in H.
  apply Qnot_le_lt. intros Hle. apply Qle_bool_iff in Hle. congruence.
Qed.

Lemma Qltb_false (x y : Q) : Qltb x y = false -> y <= x.
Proof.
  unfold Qltb. intros H. apply negb_false_iff in H. now apply Qle_bool_iff.
Qed.

(** The loop keeps the successful candidates and nothing else. *)
Lemma run_benchmarks_succeeded (world : Z -> Trial) (runs : Z)
    (counts : list Z) :
  forall results : list Stats,
  (forall n e, In n counts ->
     benchmark (world n) n runs = Raise e -> is_Exception e = true) ->
  run_benchmarks world runs results counts =
    Ok (results ++ succeeded world runs counts)%list.
Proof.
  induction counts as [|n rest IH]; intros results Hexn; simpl.
  - now rewrite app_nil_r.
  - destruct (benchmark (world n) n runs) as [r|e] eqn:Hb.
    + rewrite IH; [now rewrite <- app_assoc|].
      intros m e Hm. apply Hexn. now right.
    + rewrite (Hexn n e (or_introl eq_refl) Hb). simpl.
      apply IH. intros m e' Hm. apply Hexn. now right.
Qed.

(** After the summary loop, [best] is an element that no other element
    beats. *)
Lemma fold_pick_best (results : list Stats) :
  forall best0 : option Stats,
  match fold_left pick_best results best0 with
  | None => best0 = None /\ results = []
  | Some b =>
      (best0 = Some b \/ In b results) /\
      (forall b0, best0 = Some b0 -> avg_time b <= avg_time b0) /\
      (forall r, In r results -> avg_time b <= avg_time r)
  end.
Proof.
  induction results as [|r rest IH]; intros best0; simpl.
  - destruct best0 as [b0|]; [|auto].
    split; [now left|]. split; [|tauto].
    intros b [= ->]. apply Qle_refl.
  - specialize (IH (pick_best best0 r)).
    destruct (fold_left pick_best rest (pick_best best0 r)) as [b|].
    + destruct IH as (Hin & Hle0 & Hrest).
      assert (avg_time b <= avg_time r /\
              (forall b0, best0 = Some b0 -> avg_time b <= avg_time b0) /\
              (pick_best best0 r = Some b -> best0 = Some b \/ b = r))
        as (Hr & Hb0 & Hsrc).
      { unfold pick_best in *. destruct best0 as [b0|].
        - destruct (Qltb (avg_time r) (avg_time b0)) eqn:Hlt.
          + apply Qltb_true in Hlt.
            assert (avg_time b <= avg_time r) by now apply Hle0.
            split; [assumption|]. split.
            * intros b1 [= <-]. eapply Qle_trans; [eassumption|].
              now apply Qlt_le_weak.
            * intros [= <-]. now right.
          + apply Qltb_false in Hlt.
            assert (avg_time b <= avg_time b0) by now apply Hle0.
            split; [eapply Qle_trans; eassumption|]. split.
            * now intros b1 [= <-].
            * intros [= <-]. now left.
        - split; [now apply Hle0|]. split; [discriminate|].
          intros [= <-]. now right. }
      split; [|split].
      * destruct Hin as [Hin|Hin]; [|now right; right].
        destruct (Hsrc Hin) as [H|H]; [now left|right; now left].
      * exact Hb0.
      * intros r' [<-|Hr']; [exact Hr|now apply Hrest].
    + destruct IH as [Hnone _]. unfold pick_best in Hnone.
      destruct best0; [destruct (Qltb _ _)|]; discriminate.
Qed.

Lemma run_loop_times (T : Trial) (range : list nat) :
  forall acc acc' : list Q * list Q,
  run_loop T acc range = Ok acc' ->
  List.length acc'.1 = (List.length acc.1 + List.length range)%nat.
Proof.
  induction range as [|i rest IH]; intros acc acc'; simpl.
  - intros [= <-]. lia.
  - destruct (run_step T acc i) as [acc1|] eqn:Hstep; [|discriminate].
    intros Hloop. apply IH in Hloop. rewrite Hloop.
    unfold run_step in Hstep.
    destruct (timed_run T i) as [[dt text]|]; [|discriminate].
    destruct (truediv _ dt); [|discriminate].
    injection Hstep as <-. simpl. rewrite List.length_app. simpl. lia.
Qed.

(** A completed candidate reports the mean of its [runs] durations, as
    the float division of their float sum by their number gives it. *)
Lemma benchmark_avg_time (T : Trial) (n runs : Z) (r : Stats) :
  benchmark T n runs = Ok r ->
  threads r = n /\
  exists times tokens_list,
    run_loop T ([], []) (seq 0 (Z.to_nat runs)) = Ok (times, tokens_list) /\
    List.length times = Z.to_nat runs /\
    truediv (sum times) (len times) = Ok (avg_time r).
Proof.
  unfold benchmark.
  destruct (Llama T); [|discriminate].
  destruct (warmup T); [|discriminate].
  destruct (run_loop T ([], []) (seq 0 (Z.to_nat runs)))
    as [[times tokens_list]|] eqn:Hloop; [|discriminate].
  destruct (truediv (sum times) (len times)) as [mean|] eqn:Hmean;
    [|discriminate].
  destruct (truediv (sum_int tokens_list) (len tokens_list)); [|discriminate].
  destruct (truediv _ mean); [|discriminate].
  destruct (py_min times); [|discriminate].
  destruct (py_max times); [|discriminate].
  intros [= <-]. simpl. split; [reflexivity|].
  exists times, tokens_list. split; [reflexivity|]. split; [|exact Hmean].
  apply run_loop_times in Hloop. simpl in Hloop.
  now rewrite List.length_seq in Hloop.
Qed.

(** C10.  Whatever candidates fail with an exception, the summary list
    is the list of the candidates that completed, in loop order; the
    [avg_time] of each entry is what [sum(times) / len(times)] gives on
    its run durations, in float arithmetic; and the recommended
    candidate, present exactly when the list is not empty, is an entry
    whose [avg_time] no other entry undercuts. *)
Theorem summary_excludes_failures_and_picks_fastest
    (world : Z -> Trial) (runs : Z) :
  (forall n e, In n thread_counts ->
     benchmark (world n) n runs = Raise e -> is_Exception e = true) ->
  exists results best,
    main world runs = Ok (results, best) /\
    results = succeeded world runs thread_counts /\
    (forall r, In r results <->
       exists n, In n thread_counts /\ benchmark (world n) n runs = Ok r) /\
    (forall r, In r results ->
       exists times tokens_list,
         run_loop (world (threads r)) ([], []) (seq 0 (Z.to_nat runs))
           = Ok (times, tokens_list) /\
         List.length times = Z.to_nat runs /\
         truediv (sum times) (len times) = Ok (avg_time r)) /\
    (best = None <-> results = []) /\
    (forall b, best = Some b ->
       In b results /\ forall r, In r results -> avg_time b <= avg_time r).
Proof.
  intros Hexn.
  assert (forall r, In r (succeeded world runs thread_counts) <->
            exists n, In n thread_counts /\ benchmark (world n) n runs = Ok r)
    as Hin.
  { intros r. unfold succeeded. rewrite in_flat_map. split.
    - intros (n & Hn & Hr). exists n. split; [exact Hn|].
      destruct (benchmark (world n) n runs) as [r'|]; [|destruct Hr].
      destruct Hr as [->|[]]. reflexivity.
    - intros (n & Hn & Hr). exists n. split; [exact Hn|].
      rewrite Hr. now left. }
  exists (succeeded world runs thread_counts),
    (fold_left pick_best (succeeded world runs thread_counts) None).
  split; [|split; [reflexivity|split; [exact Hin|split; [|split]]]].
  - unfold main. now rewrite run_benchmarks_succeeded.
  - intros r Hr. apply Hin in Hr as (n & _ & Hr).
    apply benchmark_avg_time in Hr as (<- & times & tokens_list & H).
    now exists times, tokens_list.
  - pose proof (fold_pick_best (succeeded world runs thread_counts) None) as H.
    destruct (fold_left pick_best _ None) as [b|].
    + split; [discriminate|]. intros Hnil.
      destruct H as ([H|H] & _); [discriminate|].
      rewrite Hnil in H. destruct H.
    + split; [intros _; exact (proj2 H)|reflexivity].
  - intros b Hb.
    pose proof (fold_pick_best (succeeded world runs thread_counts) None) as H.
    rewrite Hb in H. destruct H as ([H|H] & _ & Hmin); [discriminate|].
    now split.
Qed.

Lemma summary_excludes_failures_and_picks_fastest_witness :
  exists results b,
    main lab_world 3 = Ok (results, Some b) /\
    List.map threads results = [6; 8; 12]%Z /\
    threads b = 8%Z /\
    avg_time b == 2 /\ min_time b == 1 /\ max_time b == 3.
Proof.
  destruct (summary_excludes_failures_and_picks_fastest lab_world 3)
    as (results & best & Hmain & Hres & _).
  - intros n e Hn.
    repeat (destruct Hn as [<-|Hn]; [vm_compute; intros [= <-]; reflexivity|]).
    destruct Hn.
  - vm_compute in Hres. subst results.
    assert (exists b, best = Some b /\ threads b = 8%Z /\
              avg_time b == 2 /\ min_time b == 1 /\ max_time b == 3)
      as (b & -> & Hb).
    { vm_compute in Hmain. injection Hmain as <-. eexists.
      split; [reflexivity|]. repeat split. }
    eexists. exists b. split; [exact Hmain|]. split; [reflexivity|exact Hb].
Defined.

(** The means are the rounded ones: the same three durations give
    0.20000000000000004 in one order and 0.19999999999999998 in the
    other, and the second candidate is recommended. *)
Lemma means_follow_float_rounding :
  exists r4 r6,
    main rounding_world 3 = Ok ([r4; r6], Some r6) /\
    threads r4 = 4%Z /\ threads r6 = 6%Z /\
    avg_time r4 = 7205759403792795 # 36028797018963968 /\
    avg_time r6 = 7205759403792793 # 36028797018963968.
Proof.
  destruct (main rounding_world 3) as [[results best]|] eqn:Hmain;
    vm_compute in Hmain; [|discriminate Hmain].
  injection Hmain as <- <-. eexists. eexists.
  split; [reflexivity|]. repeat split.
Qed.

End BenchFacts.

(** ** More on the retrieval loop *)

Module RetrieveLoopFacts.
Import Py PyFacts RagServer Scenarios RetrieveFacts.

Section Loop.
Variables (chunks : list string) (chunk_metadata : list Metadata).
Variable scores0 : list Q.
Hypothesis parallel : List.length chunk_metadata = List.length chunks.

Abbreviation stepL := (retrieve_step chunks chunk_metadata scores0).
Abbreviation loopL := (retrieve_loop chunks chunk_metadata scores0).

(** The only exception the loop body can raise. *)
Lemma retrieve_step_raises (results : list RetrievalResult) (i : nat)
    (idx : Z) (e : exn) :
  stepL results i idx = Raise e -> e = IndexError.
Proof using Type.
  clear parallel. unfold retrieve_step, getitem.
  repeat match goal with
         | |- context [if ?b then _ else _] => destruct b
         | |- context [match ?o with Some _ => _ | None => _ end] => destruct o
         end; congruence.
Qed.

(** With a label in [-len, len) and a score in column [i], the body
    appends one result. *)
Lemma retrieve_step_in_range (results : list RetrievalResult) (i : nat)
    (idx : Z) :
  - Z.of_nat (List.length chunks) <= idx < Z.of_nat (List.length chunks) ->
  (i < List.length scores0)%nat ->
  exists r, stepL results i idx = Ok (results ++ [r])%list.
Proof using parallel.
  intros Hidx Hi.
  destruct (lookup_lt_is_Some_2 scores0 i Hi) as [s Hs].
  destruct (Z.ltb_spec idx 0) as [Hneg|Hpos].
  - unfold retrieve_step.
    destruct (idx <? Z.of_nat (List.length chunks)) eqn:Hlt;
      [|apply Z.ltb_ge in Hlt; lia].
    rewrite (getitem_wraps chunks), (getitem_wraps chunk_metadata) by lia.
    rewrite getitem_nonneg by lia. rewrite Nat2Z.id, Hs, parallel.
    destruct (lookup_lt_is_Some_2 chunks
                (Z.to_nat (Z.of_nat (List.length chunks) + idx)))
      as [c ->]; [lia|].
    destruct (lookup_lt_is_Some_2 chunk_metadata
                (Z.to_nat (Z.of_nat (List.length chunks) + idx)))
      as [m ->]; [lia|].
    eexists. reflexivity.
  - unfold retrieve_step.
    destruct (idx <? Z.of_nat (List.length chunks)) eqn:Hlt;
      [|apply Z.ltb_ge in Hlt; lia].
    rewrite !getitem_nonneg by lia. rewrite Nat2Z.id, Hs.
    destruct (lookup_lt_is_Some_2 chunks (Z.to_nat idx)) as [c ->]; [lia|].
    destruct (lookup_lt_is_Some_2 chunk_metadata (Z.to_nat idx)) as [m ->];
      [lia|].
    eexists. reflexivity.
Qed.

(** The loop completes when no label is below [-len(chunks)]. *)
Lemma retrieve_loop_completes (ids : list Z) :
  forall (results : list RetrievalResult) (i : nat),
  Forall (fun idx => - Z.of_nat (List.length chunks) <= idx) ids ->
  (i + List.length ids <= List.length scores0)%nat ->
  exists rs, loopL results i ids = Ok rs.
Proof using parallel.
  induction ids as [|idx rest IH]; intros results i Hall Hlen; simpl.
  - now exists results.
  - apply Forall_cons in Hall as [Hidx Hrest]. simpl in Hlen.
    destruct (Z.ltb_spec idx (Z.of_nat (List.length chunks))) as [Hlt|Hge].
    + destruct (retrieve_step_in_range results i idx) as [r ->]; [lia|lia|].
      apply IH; [exact Hrest|lia].
    + rewrite retrieve_step_skips by exact Hge. apply IH; [exact Hrest|lia].
Qed.

(** The loop fails, with [IndexError], when some label is below
    [-len(chunks)]. *)
Lemma retrieve_loop_fails (ids : list Z) :
  forall (results : list RetrievalResult) (i : nat),
  Exists (fun idx => idx < - Z.of_nat (List.length chunks)) ids ->
  loopL results i ids = Raise IndexError.
Proof using Type.
  clear parallel.
  induction ids as [|idx rest IH]; intros results i Hex; simpl.
  - now apply Exists_nil in Hex.
  - destruct (stepL results i idx) as [results'|e] eqn:Hstep.
    + apply IH. apply Exists_cons in Hex as [Hlow|Hrest]; [|exact Hrest].
      rewrite retrieve_step_below in Hstep by exact Hlow. discriminate.
    + now rewrite (retrieve_step_raises _ _ _ _ Hstep).
Qed.

(** The scores of the results, in order, are picked from the columns
    from [i] on, in order. *)
Lemma retrieve_loop_scores (ids : list Z) :
  forall (results rs : list RetrievalResult) (i : nat),
  loopL results i ids = Ok rs ->
  exists added, rs = (results ++ added)%list /\
    sublist (List.map res_score added) (List.skipn i scores0).
Proof using Type.
  clear parallel.
  induction ids as [|idx rest IH]; intros results rs i; simpl.
  - intros [= <-]. exists []. split; [now rewrite app_nil_r|].
    apply sublist_nil_l.
  - destruct (stepL results i idx) as [results'|] eqn:Hstep; [|discriminate].
    intros Hloop. apply IH in Hloop as (added & -> & Hsub).
    unfold retrieve_step in Hstep.
    destruct (idx <? Z.of_nat (List.length chunks)).
    + destruct (getitem chunks idx) as [c|]; [|discriminate].
      destruct (getitem scores0 (Z.of_nat i)) as [s|] eqn:Hs; [|discriminate].
      destruct (getitem chunk_metadata idx) as [m|]; [|discriminate].
      injection Hstep as <-.
      rewrite getitem_nonneg in Hs by lia. rewrite Nat2Z.id in Hs.
      destruct (scores0 !! i) as [s'|] eqn:Hs'; [|discriminate].
      injection Hs as ->.
      eexists (_ :: added). split; [now rewrite <- app_assoc|].
      change (List.skipn i scores0) with (list.drop i scores0).
      rewrite (drop_S scores0 s i Hs'). simpl.
      now apply sublist_skip.
    + injection Hstep as <-. exists added. split; [reflexivity|].
      change (List.skipn i scores0) with (list.drop i scores0).
      change (List.skipn (S i) scores0) with (list.drop (S i) scores0) in Hsub.
      etransitivity; [exact Hsub|].
      replace (S i) with (i + 1)%nat by lia.
      rewrite <- (drop_drop scores0 1 i). apply sublist_drop.
Qed.

(** With every label a position of the chunk list, the loop gives one
    result per label. *)
Lemma retrieve_loop_valid (ids : list Z) :
  forall (results : list RetrievalResult) (i : nat),
  Forall (fun idx => 0 <= idx < Z.of_nat (List.length chunks)) ids ->
  (i + List.length ids <= List.length scores0)%nat ->
  exists added,
    loopL results i ids = Ok (results ++ added)%list /\
    List.length added = List.length ids /\
    forall (j : nat) (idx : Z), ids !! j = Some idx ->
      exists c s m,
        chunks !! Z.to_nat idx = Some c /\
        chunk_metadata !! Z.to_nat idx = Some m /\
        scores0 !! (i + j)%nat = Some s /\
        added !! j =
          Some {| res_content := c; res_score := s; res_metadata := m |}.
Proof using parallel.
  induction ids as [|idx rest IH]; intros results i Hall Hlen; simpl.
  - exists []. rewrite app_nil_r. split; [reflexivity|].
    split; [reflexivity|]. intros j idx Hj. discriminate.
  - apply Forall_cons in Hall as [Hidx Hrest]. simpl in Hlen.
    destruct (lookup_lt_is_Some_2 scores0 i) as [s Hs]; [lia|].
    destruct (lookup_lt_is_Some_2 chunks (Z.to_nat idx)) as [c Hc]; [lia|].
    destruct (lookup_lt_is_Some_2 chunk_metadata (Z.to_nat idx)) as [m Hm];
      [lia|].
    assert (stepL results i idx =
            Ok (results ++ [{| res_content := c; res_score := s;
                               res_metadata := m |}])%list) as ->.
    { unfold retrieve_step.
      destruct (idx <? Z.of_nat (List.length chunks)) eqn:Hlt;
        [|apply Z.ltb_ge in Hlt; lia].
      rewrite !getitem_nonneg by lia. now rewrite Nat2Z.id, Hs, Hc, Hm. }
    destruct (IH (results ++ [{| res_content := c; res_score := s;
                                 res_metadata := m |}])%list (S i) Hrest)
      as (added & -> & Hlen' & Hat); [lia|].
    eexists (_ :: added). split; [now rewrite <- app_assoc|].
    split; [simpl; now rewrite Hlen'|].
    intros [|j] idx' Hj; simpl in Hj.
    + injection Hj as <-. exists c, s, m. rewrite Nat.add_0_r. auto.
    + destruct (Hat j idx' Hj) as (c' & s' & m' & ? & ? & Hs' & ?).
      exists c', s', m'. replace (i + S j)%nat with (S i + j)%nat by lia.
      auto.
Qed.

End Loop.

Lemma StronglySorted_sublist {A : Type} (R : A -> A -> Prop) (l k : list A) :
  sublist l k -> StronglySorted R k -> StronglySorted R l.
Proof.
  induction 1 as [|x l k Hsub IH|x l k Hsub IH]; intros Hk.
  - constructor.
  - apply StronglySorted_inv in Hk as [Hk Hx]. constructor; [now apply IH|].
    rewrite List.Forall_forall in *. intros y Hy. apply Hx.
    apply list_elem_of_In. eapply elem_of_sublist; [|exact Hsub].
    now apply list_elem_of_In.
  - apply StronglySorted_inv in Hk as [Hk _]. now apply IH.
Qed.

(** X1.  On the arrays the index returns, the loop of [retrieve] fails
    exactly when some label lies below [-len(chunks)], and then with
    [IndexError]; with no such label it returns a result list. *)
Theorem retrieve_loop_fails_exactly_below
    (chunks : list string) (chunk_metadata : list Metadata)
    (scores0 : list Q) (indices0 : list Z) :
  List.length chunk_metadata = List.length chunks ->
  List.length indices0 = List.length scores0 ->
  (Forall (fun idx => - Z.of_nat (List.length chunks) <= idx) indices0 ->
   exists rs,
     retrieve_loop chunks chunk_metadata scores0 [] 0 indices0 = Ok rs) /\
  (Exists (fun idx => idx < - Z.of_nat (List.length chunks)) indices0 ->
   retrieve_loop chunks chunk_metadata scores0 [] 0 indices0
     = Raise IndexError).
Proof.
  intros Hpar Hlen. split.
  - intros Hall. apply retrieve_loop_completes; [exact Hpar|exact Hall|].
    simpl. lia.
  - apply retrieve_loop_fails.
Qed.

Lemma retrieve_loop_fails_exactly_below_witness :
  (exists rs,
     retrieve_loop ["a"; "b"]
       [{| meta_title := "a"; meta_source := builtin |};
        {| meta_title := "b"; meta_source := docs |}]
       [0.5%Q; 0.25%Q] [] 0 [1; -2] = Ok rs) /\
  retrieve_loop ["a"; "b"]
    [{| meta_title := "a"; meta_source := builtin |};
     {| meta_title := "b"; meta_source := docs |}]
    [0.5%Q; 0.25%Q] [] 0 [1; -3] = Raise IndexError.
Proof.
  split.
  - apply (retrieve_loop_fails_exactly_below ["a"; "b"]
             [{| meta_title := "a"; meta_source := builtin |};
              {| meta_title := "b"; meta_source := docs |}]
             [0.5%Q; 0.25%Q] [1; -2]); [reflexivity|reflexivity|].
    repeat constructor; simpl; lia.
  - apply (retrieve_loop_fails_exactly_below ["a"; "b"]
             [{| meta_title := "a"; meta_source := builtin |};
              {| meta_title := "b"; meta_source := docs |}]
             [0.5%Q; 0.25%Q] [1; -3]); [reflexivity|reflexivity|].
    apply Exists_cons_tl, Exists_cons_hd. simpl. lia.
Defined.

(** X2.  When every label the index returns is a position of the chunk
    list, the loop of [retrieve] gives one result per label, in order:
    result [j] carries the chunk and the metadata at label [j] and the
    score of column [j]. *)
Theorem retrieve_loop_one_result_per_label
    (chunks : list string) (chunk_metadata : list Metadata)
    (scores0 : list Q) (indices0 : list Z) :
  List.length chunk_metadata = List.length chunks ->
  List.length indices0 = List.length scores0 ->
  Forall (fun idx => 0 <= idx < Z.of_nat (List.length chunks)) indices0 ->
  exists rs,
    retrieve_loop chunks chunk_metadata scores0 [] 0 indices0 = Ok rs /\
    List.length rs = List.length indices0 /\
    forall (j : nat) (idx : Z), indices0 !! j = Some idx ->
      exists c s m,
        chunks !! Z.to_nat idx = Some c /\
        chunk_metadata !! Z.to_nat idx = Some m /\
        scores0 !! j = Some s /\
        rs !! j =
          Some {| res_content := c; res_score := s; res_metadata := m |}.
Proof.
  intros Hpar Hlen Hall.
  destruct (retrieve_loop_valid chunks chunk_metadata scores0 Hpar
              indices0 [] 0%nat Hall) as (rs & Hloop & Hrs & Hat);
    [simpl; lia|].
  exists rs. split; [exact Hloop|]. split; [exact Hrs|]. exact Hat.
Qed.

Lemma retrieve_loop_one_result_per_label_witness :
  retrieve_loop ["a"; "b"]
    [{| meta_title := "a"; meta_source := builtin |};
     {| meta_title := "b"; meta_source := docs |}]
    [0.5%Q; 0.25%Q] [] 0 [1; 0]
  = Ok [{| res_content := "b"; res_score := 0.5%Q;
           res_metadata := {| meta_title := "b"; meta_source := docs |} |};
        {| res_content := "a"; res_score := 0.25%Q;
           res_metadata := {| meta_title := "a"; meta_source := builtin |} |}].
Proof.
  destruct (retrieve_loop_one_result_per_label ["a"; "b"]
              [{| meta_title := "a"; meta_source := builtin |};
               {| meta_title := "b"; meta_source := docs |}]
              [0.5%Q; 0.25%Q] [1; 0]) as (rs & Hloop & _);
    [reflexivity | reflexivity | repeat constructor; simpl; lia |].
  rewrite Hloop. vm_compute in Hloop. injection Hloop as <-. reflexivity.
Defined.

(** X3.  [retrieve] keeps the order of the index: when [search] returns
    its scores in non-increasing order, the scores of the results of a
    successful [retrieve] are in non-increasing order. *)
Theorem retrieve_keeps_score_order {Vec : Type} (E : Env Vec)
    (query : string) (top_k : Z) (s s1 : State Vec)
    (rs : list RetrievalResult) :
  (forall ix q k found, search E ix q k = Ok found ->
     StronglySorted (fun x y => (y <= x)%Q) found.1) ->
  retrieve E query top_k s = (Ok rs, s1) ->
  StronglySorted (fun x y => (y <= x)%Q) (List.map res_score rs).
Proof.
  intros Hsorted Hretr.
  destruct (ChatFacts.retrieve_Ok_inv E _ _ _ _ _ Hretr)
    as (sq & ix & q & found & _ & Hsearch & Hloop).
  apply Hsorted in Hsearch.
  apply retrieve_loop_scores in Hloop as (added & -> & Hsub).
  simpl in *. eapply StronglySorted_sublist; [exact Hsub|exact Hsearch].
Qed.

Lemma retrieve_keeps_score_order_witness :
  exists rs,
    (retrieve ranked_env "how to borrow" 3 initial_state).1 = Ok rs /\
    List.map res_score rs = [0.75%Q; 0.5%Q; 0.5%Q] /\
    StronglySorted (fun x y => (y <= x)%Q) (List.map res_score rs).
Proof.
  destruct (retrieve ranked_env "how to borrow" 3 initial_state)
    as [r s1] eqn:Hretr.
  assert (exists rs, r = Ok rs /\
            List.map res_score rs = [0.75%Q; 0.5%Q; 0.5%Q])
    as (rs & -> & Hscores).
  { vm_compute in Hretr. injection Hretr as <- _. eexists.
    split; reflexivity. }
  exists rs. split; [reflexivity|]. split; [exact Hscores|].
  apply (retrieve_keeps_score_order ranked_env "how to borrow" 3
           initial_state s1 rs); [|exact Hretr].
  intros ix q k found [= <-]. simpl.
  repeat constructor; unfold Qle; simpl; lia.
Defined.

End RetrieveLoopFacts.

(** ** The server state across calls *)

Module ServerFacts.
Import Py PyFacts RagServer Scenarios StoreFacts ChatFacts.

Section Frames.
Context {Vec : Type} (E : Env Vec).

Lemma keeps_bind {X A B : Type} (f : State Vec -> X) (m : M A)
    (k : A -> M B) :
  keeps f m -> (forall a, keeps f (k a)) -> keeps f (bind m k).
Proof.
  intros Hm Hk s. unfold bind. specialize (Hm s).
  destruct (m s) as [[a|e] s1]; simpl in *; [|exact Hm].
  now rewrite Hk.
Qed.

Lemma keeps_pure {X A : Type} (f : State Vec -> X) (r : result A) :
  keeps f (lift r).
Proof. now intros s. Qed.

Lemma keeps_get {X : Type} (f : State Vec -> X) : keeps f get.
Proof. now intros s. Qed.

(** [init_embedding_model] touches neither the language model nor the
    index nor the two lists. *)
Lemma init_embedding_model_keeps :
  keeps (fun s => (llm s, index s, chunks s, chunk_metadata s))
    (init_embedding_model E).
Proof.
  intros s. unfold init_embedding_model, bind, get, ret, log, lift,
    set_embed_model. simpl.
  destruct (embed_model s); [reflexivity|].
  destruct (SentenceTransformer E); reflexivity.
Qed.

Lemma init_embedding_model_loaded (s : State Vec) (m : EmbedModel) :
  embed_model s = Some m -> init_embedding_model E s = (Ok m, s).
Proof.
  intros Hm. unfold init_embedding_model, bind, get, ret. now rewrite Hm.
Qed.

(** Nothing on the retrieval side loads the language model. *)
Lemma init_vector_store_keeps_llm : keeps llm (init_vector_store E).
Proof.
  intros s. unfold init_vector_store. generalize KNOWLEDGE_BASE as kb.
  intros kb. unfold bind at 1, get. simpl.
  destruct (index s); [reflexivity|]. unfold bind at 1, lift at 1.
  destruct (faiss E FaissImport) as [[]|e]; [|reflexivity].
  unfold bind at 1.
  pose proof (init_embedding_model_keeps s) as Hm.
  destruct (init_embedding_model E s) as [[m|e] s1]; simpl in *;
    [|congruence].
  unfold bind, set_chunks, log, lift, set_index, ret. simpl.
  destruct (load_markdown_docs (DOCS_DIR E)); simpl; [|congruence].
  destruct (encode E _); simpl; [|congruence].
  destruct (shape1 E _); simpl; [|congruence].
  destruct (faiss E (FaissIndexFlatIP _)) as [[]|e]; simpl; [|congruence].
  destruct (faiss E (FaissNormalizeL2 _)) as [[]|e]; simpl; [|congruence].
  destruct (faiss E (FaissAdd _)) as [[]|e]; simpl; congruence.
Qed.

Lemma retrieve_keeps_llm (query : string) (top_k : Z) :
  keeps llm (retrieve E query top_k).
Proof.
  unfold retrieve.
  apply keeps_bind; [apply keeps_get|]. intros s0.
  apply keeps_bind.
  { destruct (index s0); [now intros s|].
    apply keeps_bind; [apply init_vector_store_keeps_llm|]. now intros ? s. }
  intros _. apply keeps_bind.
  { intros s. pose proof (init_embedding_model_keeps s). simpl in *.
    congruence. }
  intros _. apply keeps_bind; [now intros s|]. intros _.
  apply keeps_bind; [apply keeps_pure|]. intros qe.
  apply keeps_bind; [apply keeps_pure|]. intros _.
  apply keeps_bind; [apply keeps_pure|]. intros _.
  apply keeps_bind; [apply keeps_get|]. intros s1.
  destruct (index s1); [|now intros s].
  apply keeps_bind; [now intros s|]. intros _.
  apply keeps_bind; [apply keeps_pure|]. intros found. apply keeps_pure.
Qed.

(** With the model loaded and the index built, [retrieve] encodes the
    query, searches unless the encoding or the normalisation raised,
    and changes no global. *)
Lemma retrieve_built (query : string) (top_k : Z) (s : State Vec)
    (m : EmbedModel) (ix : Index Vec) :
  embed_model s = Some m -> index s = Some ix ->
  globals (retrieve E query top_k s).2 = globals s /\
  ((calls (retrieve E query top_k s).2 = (calls s ++ [EvEncode [query]])%list /\
    forall rs, (retrieve E query top_k s).1 <> Ok rs) \/
   calls (retrieve E query top_k s).2 =
     (calls s ++ [EvEncode [query]; EvSearch top_k])%list).
Proof.
  intros Hm Hix.
  destruct (retrieve E query top_k s) as [r s'] eqn:Hrun.
  unfold retrieve in Hrun.
  unfold bind at 1, get in Hrun. rewrite Hix in Hrun.
  unfold bind at 1, ret in Hrun. unfold bind at 1 in Hrun.
  rewrite (init_embedding_model_loaded s m Hm) in Hrun.
  unfold bind, log, lift, get, raise in Hrun. simpl in Hrun.
  unfold globals.
  destruct (encode E [query]) as [qe|e]; simpl in Hrun;
    [|injection Hrun as <- <-; split; [reflexivity|left; now split]].
  destruct (faiss E FaissImport) as [[]|e]; simpl in Hrun;
    [|injection Hrun as <- <-; split; [reflexivity|left; now split]].
  destruct (faiss E (FaissNormalizeL2 qe)) as [[]|e]; simpl in Hrun;
    [|injection Hrun as <- <-; split; [reflexivity|left; now split]].
  rewrite Hix in Hrun.
  destruct (search E ix _ top_k) as [found|e]; simpl in Hrun;
    injection Hrun as <- <-; simpl; rewrite <- ?app_assoc, ?Hix;
    split; try reflexivity; now right.
Qed.

(** With the language model loaded, [generate_response] makes one call,
    on the prompt built from the query and the chunks, and changes no
    global. *)
Lemma generate_response_loaded (query : string)
    (context_chunks : list RetrievalResult) (s : State Vec) (l : Llm) :
  llm s = Some l ->
  globals (generate_response E query context_chunks s).2 = globals s /\
  calls (generate_response E query context_chunks s).2 =
    (calls s ++ [EvLlm (build_prompt query context_chunks)])%list.
Proof.
  intros Hl.
  destruct (generate_response E query context_chunks s) as [r s'] eqn:Hrun.
  unfold generate_response in Hrun.
  unfold bind at 1, get in Hrun. rewrite Hl in Hrun.
  unfold bind, ret, log, lift, get in Hrun. simpl in Hrun.
  rewrite Hl in Hrun. unfold globals.
  destruct (llm_call E (calls s) _); simpl in Hrun;
    injection Hrun as <- <-; simpl; rewrite ?Hl; split; reflexivity.
Qed.

Lemma bind_Raise {A B : Type} (m : M A) (k : A -> M B)
    (s s1 : State Vec) (e : exn) :
  m s = (Raise e, s1) -> bind m k s = (Raise e, s1).
Proof. intros H. unfold bind. now rewrite H. Qed.

(** How [chat] starts on a message that is not blank. *)
Lemma chat_valid_message (data : gmap string json) (message : string)
    (s : State Vec) :
  data !! "message" = Some (JStr message) ->
  strip message <> "" ->
  chat E data s =
    try_except
      (bind (retrieve E (strip message) 3) (fun context_chunks =>
       bind (generate_response E (strip message) context_chunks)
         (fun response =>
       ret {| status := 200;
              body := JObj
                [("response", JStr response);
                 ("sources",
                  JList (List.map (fun c => JStr (meta_title (res_metadata c)))
                           context_chunks))] |})))
      (fun e => ret {| status := 500; body := error_body (str_exn e) |}) s.
Proof.
  intros Hmsg Hq. unfold chat, get_stripped. rewrite Hmsg.
  unfold bind at 1, lift.
  assert (falsy (strip message) = false) as ->
    by (destruct (strip message); [congruence|reflexivity]).
  reflexivity.
Qed.

(** What [chat] does with an exception raised inside its [try] block. *)
Lemma chat_failure (data : gmap string json) (message : string)
    (s s1 : State Vec) (e : exn) :
  data !! "message" = Some (JStr message) ->
  strip message <> "" ->
  retrieve E (strip message) 3 s = (Raise e, s1) \/
  (exists context_chunks s0,
     retrieve E (strip message) 3 s = (Ok context_chunks, s0) /\
     generate_response E (strip message) context_chunks s0 = (Raise e, s1)) ->
  chat E data s =
    if is_Exception e
    then (Ok {| status := 500;
                body := JObj [("error", JStr (str_exn e))] |}, s1)
    else (Raise e, s1).
Proof.
  intros Hmsg Hq Hfail. rewrite (chat_valid_message data message s Hmsg Hq).
  unfold try_except.
  destruct Hfail as [Hretr|(ctx & s0 & Hretr & Hgen)].
  - rewrite (bind_Raise _ _ _ _ _ Hretr). reflexivity.
  - rewrite (bind_Ok _ _ _ _ _ Hretr), (bind_Raise _ _ _ _ _ Hgen).
    reflexivity.
Qed.

(** Where a build from scratch can fail, and what it leaves behind:
    before [index] is assigned it leaves [index] unset; in
    [normalize_L2] or [add] it leaves the new, still empty index
    assigned, next to the two lists just built. *)
Lemma init_vector_store_Raise_inv (s s' : State Vec) (e : exn) :
  index s = None ->
  init_vector_store E s = (Raise e, s') ->
  (index s' = None /\
   (faiss E FaissImport = Raise e \/
    SentenceTransformer E = Raise e \/
    load_markdown_docs (DOCS_DIR E) = Raise e \/
    exists md_docs,
      load_markdown_docs (DOCS_DIR E) = Ok md_docs /\
      (encode E (build_chunks KNOWLEDGE_BASE md_docs).1 = Raise e \/
       (encode E (build_chunks KNOWLEDGE_BASE md_docs).1 = Ok [] /\
        e = IndexError) \/
       exists rows d,
         encode E (build_chunks KNOWLEDGE_BASE md_docs).1 = Ok rows /\
         shape1 E rows = Ok d /\
         faiss E (FaissIndexFlatIP d) = Raise e))) \/
  (exists md_docs rows d,
     load_markdown_docs (DOCS_DIR E) = Ok md_docs /\
     encode E (build_chunks KNOWLEDGE_BASE md_docs).1 = Ok rows /\
     shape1 E rows = Ok d /\
     index s' = Some {| index_d := d; index_vectors := [] |} /\
     chunks s' = (build_chunks KNOWLEDGE_BASE md_docs).1 /\
     chunk_metadata s' = (build_chunks KNOWLEDGE_BASE md_docs).2 /\
     (faiss E (FaissNormalizeL2 rows) = Raise e \/
      faiss E (FaissAdd (List.map (normalize_L2 E) rows)) = Raise e)).
Proof.
  intros Hnone. unfold init_vector_store, build_chunks.
  generalize KNOWLEDGE_BASE as kb. intros kb.
  unfold bind at 1, get. rewrite Hnone. unfold bind at 1, lift at 1.
  destruct (faiss E FaissImport) as [[]|e0] eqn:Himport;
    [|intros [= <- <-]; left; auto].
  unfold bind at 1.
  pose proof (init_embedding_model_keeps s) as Hm.
  destruct (init_embedding_model E s) as [[m|e0] s1] eqn:Hmodel;
    simpl in Hm.
  - injection Hm as _ Hix1 _ _. rewrite Hnone in Hix1.
    unfold bind, set_chunks, log, lift, set_index, ret. simpl.
    destruct (load_markdown_docs (DOCS_DIR E)) as [md_docs|e1] eqn:Hdocs;
      [|intros [= <- <-]; left; simpl; auto].
    destruct (encode E _) as [rows|e1] eqn:Henc;
      [|intros [= <- <-]; left; simpl; split; [exact Hix1|];
        right; right; right; exists md_docs; auto].
    destruct (shape1 E rows) as [d|e1] eqn:Hd.
    + destruct (faiss E (FaissIndexFlatIP d)) as [[]|e1] eqn:Hnew;
        [|intros [= <- <-]; left; simpl; split; [exact Hix1|];
          right; right; right; exists md_docs; split; [reflexivity|];
          right; right; exists rows, d; auto].
      destruct (faiss E (FaissNormalizeL2 rows)) as [[]|e1] eqn:Hnorm;
        [|intros [= <- <-]; right; exists md_docs, rows, d; simpl; auto 10].
      destruct (faiss E (FaissAdd _)) as [[]|e1] eqn:Hadd;
        [discriminate|].
      intros [= <- <-]. right. exists md_docs, rows, d. simpl. auto 10.
    + intros [= <- <-]. left. simpl. split; [exact Hix1|].
      right. right. right. exists md_docs. split; [reflexivity|].
      right. left. unfold shape1 in Hd. destruct rows; [|discriminate].
      injection Hd as <-. auto.
  - intros [= <- <-]. injection Hm as _ Hix1 _ _. left.
    split; [congruence|]. right. left.
    unfold init_embedding_model, bind, get, log, lift, set_embed_model, ret
      in Hmodel.
    destruct (embed_model s); [discriminate|]. simpl in Hmodel.
    destruct (SentenceTransformer E); [discriminate|]. congruence.
Qed.

End Frames.

(** X4.  Once the embedding model is loaded and the index built,
    [retrieve] changes no global, and its only calls to the embedder and
    to the index are the encoding of the query and, when nothing raised
    before it, one search. *)
Theorem retrieve_once_built {Vec : Type} (E : Env Vec) (query : string)
    (top_k : Z) (s : State Vec) (m : EmbedModel) (ix : Index Vec) :
  embed_model s = Some m -> index s = Some ix ->
  globals (retrieve E query top_k s).2 = globals s /\
  (calls (retrieve E query top_k s).2 = (calls s ++ [EvEncode [query]])%list \/
   calls (retrieve E query top_k s).2 =
     (calls s ++ [EvEncode [query]; EvSearch top_k])%list).
Proof.
  intros Hm Hix.
  destruct (retrieve_built E query top_k s m ix Hm Hix) as (Hg & Hc).
  split; [exact Hg|]. destruct Hc as [[Hc _]|Hc]; [now left|now right].
Qed.

Lemma retrieve_once_built_witness :
  let s := (init_vector_store faiss_env initial_state).2 in
  globals (retrieve faiss_env "how to borrow" 3 s).2 = globals s /\
  calls (retrieve faiss_env "how to borrow" 3 s).2 =
    (calls s ++ [EvEncode ["how to borrow"]; EvSearch 3])%list.
Proof.
  intros s.
  destruct (retrieve_once_built faiss_env "how to borrow" 3 s AllMiniLM
              {| index_d := 384; index_vectors := chunks s |})
    as (Hg & Hc); [reflexivity|reflexivity|].
  split; [exact Hg|]. destruct Hc as [Hc|Hc]; [|exact Hc].
  exfalso. vm_compute in Hc. discriminate Hc.
Defined.

(** X5.  A build that starts with no index and raises has failed either
    before [index] was assigned (the import of [faiss], the embedder,
    the documents, the encoding, the width of the rows, [IndexFlatIP]),
    and then [index] is still unset, so that the next call builds again
    from scratch; or in [normalize_L2] or [add], and then [index] is
    left assigned to the new, empty index, which every later call
    returns as it is. *)
Theorem init_vector_store_failure_outcome {Vec : Type} (E : Env Vec)
    (s s' : State Vec) (e : exn) :
  index s = None ->
  init_vector_store E s = (Raise e, s') ->
  (index s' = None /\
   (faiss E FaissImport = Raise e \/
    SentenceTransformer E = Raise e \/
    load_markdown_docs (DOCS_DIR E) = Raise e \/
    (exists texts, encode E texts = Raise e) \/
    (e = IndexError /\ exists texts, encode E texts = Ok []) \/
    (exists d, faiss E (FaissIndexFlatIP d) = Raise e))) \/
  (exists d rows,
     index s' = Some {| index_d := d; index_vectors := [] |} /\
     (faiss E (FaissNormalizeL2 rows) = Raise e \/
      faiss E (FaissAdd rows) = Raise e) /\
     init_vector_store E s' =
       (Ok {| index_d := d; index_vectors := [] |}, s')).
Proof.
  intros Hnone Hrun.
  destruct (init_vector_store_Raise_inv E s s' e Hnone Hrun)
    as [[Hix Hcause]|(md_docs & rows & d & _ & _ & _ & Hix & _ & _ & Hcause)].
  - left. split; [exact Hix|].
    destruct Hcause
      as [H|[H|[H|(md_docs & _ & [H|[[H ->]|(rows & d & _ & _ & H)]])]]];
      eauto 10.
  - right. destruct Hcause as [H|H].
    + exists d, rows. split; [exact Hix|]. split; [now left|].
      now apply init_vector_store_built.
    + exists d, (List.map (normalize_L2 E) rows). split; [exact Hix|].
      split; [now right|]. now apply init_vector_store_built.
Qed.

Lemma init_vector_store_failure_outcome_witness :
  (init_vector_store offline_env initial_state).1
    = Raise (Exception "embedding backend unavailable") /\
  index (init_vector_store offline_env initial_state).2 = None /\
  List.length (chunks (init_vector_store offline_env initial_state).2)
    = 10%nat.
Proof.
  destruct (init_vector_store offline_env initial_state) as [r s'] eqn:Hrun.
  assert (r = Raise (Exception "embedding backend unavailable") /\
          List.length (chunks s') = 10%nat) as [-> Hlen].
  { vm_compute in Hrun. injection Hrun as <- <-. split; reflexivity. }
  split; [reflexivity|]. split; [|exact Hlen].
  destruct (init_vector_store_failure_outcome offline_env initial_state s' _
              eq_refl Hrun) as [[Hix _]|(d & rows & _ & [H|H] & _)].
  - exact Hix.
  - discriminate H.
  - discriminate H.
Defined.

(** After a build that failed in [add], the empty index stays assigned:
    the next [retrieve] does not build again, searches the empty
    index and reads the last chunk for each filler label. *)
Lemma failed_add_leaves_empty_index :
  let s := (init_vector_store add_fails_env initial_state).2 in
  (init_vector_store add_fails_env initial_state).1
    = Raise (Exception "add failed") /\
  index s = Some {| index_d := 384; index_vectors := [] |} /\
  exists rs,
    (retrieve add_fails_env "how to borrow" 3 s).1 = Ok rs /\
    List.map (fun r => meta_title (res_metadata r)) rs =
      ["Collateral Factor"; "Collateral Factor"; "Collateral Factor"] /\
    calls (retrieve add_fails_env "how to borrow" 3 s).2 =
      (calls s ++ [EvEncode ["how to borrow"]; EvSearch 3])%list.
Proof.
  intros s. split; [vm_compute; reflexivity|].
  split; [vm_compute; reflexivity|].
  eexists. split; [vm_compute; reflexivity|].
  split; vm_compute; reflexivity.
Qed.

(** X6.  After a build, the chunk list is the built-in entries in the
    order of [KNOWLEDGE_BASE] followed by the qualifying markdown
    sections in the order they were loaded, and the metadata list tags
    the former [builtin] and the latter [docs], with the same titles. *)
Theorem init_vector_store_order {Vec : Type} (E : Env Vec)
    (s s' : State Vec) (ix : Index Vec) :
  index s = None ->
  init_vector_store E s = (Ok ix, s') ->
  exists md_docs,
    load_markdown_docs (DOCS_DIR E) = Ok md_docs /\
    chunks s' =
      (List.map builtin_chunk KNOWLEDGE_BASE
         ++ List.map md_chunk (List.filter qualifies md_docs))%list /\
    chunk_metadata s' =
      (List.map (metadata_of builtin) KNOWLEDGE_BASE
         ++ List.map (metadata_of docs) (List.filter qualifies md_docs))%list.
Proof.
  intros Hnone Hrun.
  destruct (init_vector_store_fresh E s s' ix Hnone Hrun)
    as (md_docs & _ & _ & Hdocs & _ & _ & _ & Hc & Hm & _).
  exists md_docs. rewrite build_chunks_eq in Hc, Hm. auto.
Qed.

Lemma init_vector_store_order_witness :
  List.map meta_title
    (chunk_metadata (init_vector_store docs_env initial_state).2) =
  (List.map doc_title KNOWLEDGE_BASE ++ ["Flash loans"])%list.
Proof.
  destruct (init_vector_store docs_env initial_state) as [r s'] eqn:Hrun.
  assert (exists ix, r = Ok ix) as [ix ->].
  { vm_compute in Hrun. injection Hrun as <- _. eexists. reflexivity. }
  destruct (init_vector_store_order docs_env initial_state s' ix eq_refl Hrun)
    as (md_docs & Hdocs & _ & Hm).
  simpl. rewrite Hm. vm_compute in Hdocs. injection Hdocs as <-.
  reflexivity.
Defined.

(** X7.  On a message that is not blank, an [Exception] raised by
    retrieval or by generation becomes the answer 500 with the text of
    the exception as [error]; any other exception leaves [chat]
    unhandled. *)
Theorem chat_exception_becomes_500 {Vec : Type} (E : Env Vec)
    (data : gmap string json) (message : string) (s s1 : State Vec)
    (e : exn) :
  data !! "message" = Some (JStr message) ->
  strip message <> "" ->
  retrieve E (strip message) 3 s = (Raise e, s1) \/
  (exists context_chunks s0,
     retrieve E (strip message) 3 s = (Ok context_chunks, s0) /\
     generate_response E (strip message) context_chunks s0 = (Raise e, s1)) ->
  (is_Exception e = true ->
   chat E data s =
     (Ok {| status := 500;
            body := JObj [("error", JStr (str_exn e))] |}, s1)) /\
  (is_Exception e = false -> chat E data s = (Raise e, s1)).
Proof.
  intros Hmsg Hq Hfail.
  rewrite (chat_failure E data message s s1 e Hmsg Hq Hfail).
  split; intros ->; reflexivity.
Qed.

Lemma chat_exception_becomes_500_witness :
  (chat offline_env borrow_request initial_state).1 =
    Ok {| status := 500;
          body := JObj [("error", JStr "embedding backend unavailable")] |}.
Proof.
  destruct (retrieve offline_env (strip " How do I borrow? ") 3 initial_state)
    as [r s1] eqn:Hretr.
  assert (r = Raise (Exception "embedding backend unavailable")) as ->.
  { vm_compute in Hretr. injection Hretr as <- _. reflexivity. }
  destruct (chat_exception_becomes_500 offline_env borrow_request
              " How do I borrow? " initial_state s1
              (Exception "embedding backend unavailable")) as [H500 _].
  - vm_compute. reflexivity.
  - vm_compute. discriminate.
  - left. exact Hretr.
  - rewrite H500; reflexivity.
Defined.

(** X8.  With no language model loaded and no model file, a message that
    is not blank and whose retrieval succeeds makes [chat] raise
    [SystemExit(1)]: the handler does not answer, and no load is
    attempted. *)
Theorem chat_exits_without_model_file {Vec : Type} (E : Env Vec)
    (data : gmap string json) (message : string) (s s0 : State Vec)
    (context_chunks : list RetrievalResult) :
  llm s = None ->
  model_path_exists E = false ->
  data !! "message" = Some (JStr message) ->
  strip message <> "" ->
  retrieve E (strip message) 3 s = (Ok context_chunks, s0) ->
  chat E data s = (Raise (SystemExit 1), s0).
Proof.
  intros Hl Hfile Hmsg Hq Hretr.
  assert (llm s0 = None) as Hl0.
  { pose proof (retrieve_keeps_llm E (strip message) 3 s) as H.
    rewrite Hretr in H. simpl in H. congruence. }
  rewrite (chat_failure E data message s s0 (SystemExit 1) Hmsg Hq);
    [reflexivity|].
  right. exists context_chunks, s0. split; [exact Hretr|].
  unfold generate_response. unfold bind at 1, get. rewrite Hl0.
  unfold bind at 1. unfold bind at 1.
  unfold init_llm, bind, get, raise. now rewrite Hl0, Hfile.
Qed.

Lemma chat_exits_without_model_file_witness :
  (chat no_model_env borrow_request initial_state).1 = Raise (SystemExit 1) /\
  llm (chat no_model_env borrow_request initial_state).2 = None.
Proof.
  destruct (retrieve no_model_env (strip " How do I borrow? ") 3 initial_state)
    as [r s0] eqn:Hretr.
  assert (exists ctx, r = Ok ctx /\ llm s0 = None) as (ctx & -> & Hl).
  { vm_compute in Hretr. injection Hretr as <- <-. eexists.
    split; reflexivity. }
  rewrite (chat_exits_without_model_file no_model_env borrow_request
             " How do I borrow? " initial_state s0 ctx).
  - split; [reflexivity|exact Hl].
  - reflexivity.
  - reflexivity.
  - vm_compute. reflexivity.
  - vm_compute. discriminate.
  - exact Hretr.
Defined.

(** X9.  A ["message"] that is present but not a string ([null], a
    number, a list, an object) makes [chat] raise [AttributeError] before
    the [try] block: no 400 or 500 answer is built, and nothing outside
    the module is called. *)
Theorem chat_non_string_message {Vec : Type} (E : Env Vec)
    (data : gmap string json) (v : json) (s : State Vec) :
  data !! "message" = Some v ->
  (forall m, v <> JStr m) ->
  chat E data s = (Raise AttributeError, s).
Proof.
  intros Hmsg Hv. unfold chat, get_stripped. rewrite Hmsg.
  destruct v; try reflexivity. now destruct (Hv s0).
Qed.

Lemma chat_non_string_message_witness :
  chat faiss_env null_request initial_state =
    (Raise AttributeError, initial_state).
Proof.
  apply (chat_non_string_message faiss_env null_request JNull).
  - vm_compute. reflexivity.
  - intros m. discriminate.
Defined.

End ServerFacts.

(** ** What [retrieve] returns on the labels of the index *)

Module RetrieveRunFacts.
Import Py PyFacts RagServer Scenarios RetrieveFacts StoreFacts ChatFacts
  ServerFacts RetrieveLoopFacts.

Section Loop.
Variables (chunks : list string) (chunk_metadata : list Metadata).
Variable scores0 : list Q.

Abbreviation stepR := (retrieve_step chunks chunk_metadata scores0).
Abbreviation loopR := (retrieve_loop chunks chunk_metadata scores0).

(** The loop adds one result for each label below the chunk count and
    none for the others. *)
Lemma retrieve_loop_count (ids : list Z) :
  forall (results rs : list RetrievalResult) (i : nat),
  loopR results i ids = Ok rs ->
  List.length rs =
    (List.length results
     + List.length
         (List.filter (fun idx => (idx <? Z.of_nat (List.length chunks))%Z)
            ids))%nat.
Proof.
  induction ids as [|idx rest IH]; intros results rs i; simpl.
  - intros [= <-]. lia.
  - destruct (stepR results i idx) as [results'|] eqn:Hstep; [|discriminate].
    intros Hloop. apply IH in Hloop. rewrite Hloop.
    unfold retrieve_step in Hstep.
    destruct (idx <? Z.of_nat (List.length chunks)).
    + destruct (getitem chunks idx); [|discriminate].
      destruct (getitem scores0 _); [|discriminate].
      destruct (getitem chunk_metadata idx); [|discriminate].
      injection Hstep as <-. rewrite List.length_app. simpl. lia.
    + injection Hstep as <-. lia.
Qed.

(** Results are only ever appended. *)
Lemma retrieve_loop_keeps (ids : list Z) :
  forall (results rs : list RetrievalResult) (i : nat) (r : RetrievalResult),
  loopR results i ids = Ok rs -> In r results -> In r rs.
Proof.
  induction ids as [|idx rest IH]; intros results rs i r; simpl.
  - now intros [= <-].
  - destruct (stepR results i idx) as [results'|] eqn:Hstep; [|discriminate].
    intros Hloop Hr. apply (IH _ _ _ _ Hloop).
    unfold retrieve_step in Hstep.
    destruct (idx <? Z.of_nat (List.length chunks));
      [|now injection Hstep as <-].
    destruct (getitem chunks idx); [|discriminate].
    destruct (getitem scores0 _); [|discriminate].
    destruct (getitem chunk_metadata idx); [|discriminate].
    injection Hstep as <-. apply in_or_app. now left.
Qed.

(** A column whose label is below the chunk count is among the results,
    with what the two lists hold at that label and its own score. *)
Lemma retrieve_loop_member (ids : list Z) :
  forall (results rs : list RetrievalResult) (i j : nat) (idx : Z),
  loopR results i ids = Ok rs ->
  ids !! j = Some idx ->
  idx < Z.of_nat (List.length chunks) ->
  exists c s m,
    getitem chunks idx = Ok c /\ getitem chunk_metadata idx = Ok m /\
    scores0 !! (i + j)%nat = Some s /\
    In {| res_content := c; res_score := s; res_metadata := m |} rs.
Proof.
  induction ids as [|idx0 rest IH]; intros results rs i j idx; simpl;
    [discriminate|].
  destruct (stepR results i idx0) as [results'|] eqn:Hstep; [|discriminate].
  intros Hloop Hj Hidx. destruct j as [|j]; simpl in Hj.
  - injection Hj as ->. unfold retrieve_step in Hstep.
    destruct (idx <? Z.of_nat (List.length chunks)) eqn:Hlt;
      [|apply Z.ltb_ge in Hlt; lia].
    destruct (getitem chunks idx) as [c|]; [|discriminate].
    destruct (getitem scores0 (Z.of_nat i)) as [s|] eqn:Hs; [|discriminate].
    destruct (getitem chunk_metadata idx) as [m|]; [|discriminate].
    injection Hstep as <-.
    rewrite getitem_nonneg in Hs by lia. rewrite Nat2Z.id in Hs.
    destruct (scores0 !! i) as [s'|] eqn:Hs'; [|discriminate].
    injection Hs as ->.
    exists c, s, m. rewrite Nat.add_0_r. repeat split; try assumption.
    apply (retrieve_loop_keeps _ _ _ _ _ Hloop). apply in_or_app.
    right. now left.
  - destruct (IH _ _ _ _ _ Hloop Hj Hidx) as (c & s & m & ? & ? & Hs & ?).
    exists c, s, m. replace (i + S j)%nat with (S i + j)%nat by lia. auto.
Qed.

End Loop.

(** [l[-1]] is the last element. *)
Lemma getitem_last {A : Type} (l : list A) (x : A) :
  getitem l (-1) = Ok x -> last l = Some x.
Proof.
  intros H. apply getitem_Ok_inv in H as (pos & Hpos & Hx & Heq).
  simpl in Heq. rewrite last_lookup.
  replace (Nat.pred (List.length l)) with pos by lia. exact Hx.
Qed.

Section Run.
Context {Vec : Type} (E : Env Vec).

Lemma init_embedding_model_raises (s s' : State Vec) (e : exn) :
  init_embedding_model E s = (Raise e, s') -> SentenceTransformer E = Raise e.
Proof.
  unfold init_embedding_model, bind, get, ret, log, lift, set_embed_model.
  simpl. destruct (embed_model s); [discriminate|].
  destruct (SentenceTransformer E); [discriminate|]. now intros [= <- _].
Qed.

(** The two lists of a build are parallel and not empty. *)
Lemma build_chunks_ready (md_docs : list Doc) :
  (build_chunks KNOWLEDGE_BASE md_docs).1 <> [] /\
  List.length (build_chunks KNOWLEDGE_BASE md_docs).2 =
    List.length (build_chunks KNOWLEDGE_BASE md_docs).1.
Proof.
  rewrite build_chunks_eq. cbn [fst snd]. split.
  - intros H. apply (f_equal (@List.length string)) in H.
    rewrite List.length_app, List.length_map in H.
    change (List.length KNOWLEDGE_BASE) with 10%nat in H.
    simpl in H. lia.
  - now rewrite !List.length_app, !List.length_map.
Qed.

(** A build can only fail in a call to the outside, when the embedder
    returns a row for each text. *)
Lemma init_vector_store_raises (top_k : Z) (s s' : State Vec) (e : exn) :
  encoder_contract E ->
  index s = None ->
  init_vector_store E s = (Raise e, s') ->
  external_failure E top_k e.
Proof.
  intros Henc Hnone Hrun. unfold external_failure.
  destruct (init_vector_store_Raise_inv E s s' e Hnone Hrun)
    as [[_ Hcause]|(md_docs & rows & d & _ & _ & _ & _ & _ & _ & Hcause)].
  - destruct Hcause
      as [H|[H|[H|(md_docs & _ & [H|[[H _]|(rows & d & _ & _ & H)]])]]];
      eauto 10.
    exfalso. apply Henc in H.
    destruct (build_chunks_ready md_docs) as [Hne _].
    destruct (build_chunks KNOWLEDGE_BASE md_docs).1; [congruence|].
    discriminate H.
  - destruct Hcause as [H|H]; eauto 10.
Qed.

(** A completed build leaves two parallel, non-empty lists. *)
Lemma init_vector_store_ready (s s' : State Vec) (ix : Index Vec) :
  index s = None ->
  init_vector_store E s = (Ok ix, s') ->
  index s' = Some ix /\ chunks s' <> [] /\
  List.length (chunk_metadata s') = List.length (chunks s').
Proof.
  intros Hnone Hrun.
  destruct (init_vector_store_fresh E s s' ix Hnone Hrun)
    as (md_docs & _ & _ & _ & _ & _ & _ & Hc & Hm & Hix).
  split; [exact Hix|]. rewrite Hc, Hm. apply build_chunks_ready.
Qed.

Lemma retrieve_after_build (query : string) (top_k : Z)
    (s s1 : State Vec) (ix : Index Vec) :
  index s = None ->
  init_vector_store E s = (Ok ix, s1) ->
  retrieve E query top_k s = retrieve E query top_k s1.
Proof.
  intros Hnone Hinit.
  destruct (init_vector_store_ready s s1 ix Hnone Hinit) as (Hix & _).
  unfold retrieve. unfold bind at 1, get. rewrite Hnone.
  unfold bind at 1. unfold bind at 1. rewrite Hinit.
  symmetry. unfold bind at 1, get. rewrite Hix.
  unfold bind at 1. reflexivity.
Qed.

Lemma retrieve_build_fails (query : string) (top_k : Z)
    (s s1 : State Vec) (e : exn) :
  index s = None ->
  init_vector_store E s = (Raise e, s1) ->
  retrieve E query top_k s = (Raise e, s1).
Proof.
  intros Hnone Hinit. unfold retrieve. unfold bind at 1, get. rewrite Hnone.
  unfold bind at 1. unfold bind at 1. now rewrite Hinit.
Qed.

(** With the index built, [retrieve] passes on the failure of a call to
    the outside or returns what the loop makes of the arrays of the
    index, on lists it does not change. *)
Lemma retrieve_built_outcome (query : string) (top_k : Z)
    (s s' : State Vec) (ix : Index Vec) (r : result (list RetrievalResult)) :
  index s = Some ix ->
  retrieve E query top_k s = (r, s') ->
  index s' = Some ix /\ chunks s' = chunks s /\
  chunk_metadata s' = chunk_metadata s /\
  ((exists e, r = Raise e /\ external_failure E top_k e) \/
   (exists q found,
      search E ix q top_k = Ok found /\
      r = retrieve_loop (chunks s) (chunk_metadata s) found.1 [] 0 found.2)).
Proof.
  intros Hix Hrun. unfold retrieve in Hrun.
  unfold bind at 1, get in Hrun. rewrite Hix in Hrun.
  unfold bind at 1, ret in Hrun. unfold bind at 1 in Hrun.
  pose proof (init_embedding_model_keeps E s) as Hkeep.
  destruct (init_embedding_model E s) as [[m|e] s1] eqn:Hmodel;
    simpl in Hkeep; injection Hkeep as _ Hix1 Hc1 Hm1.
  - unfold bind, log, lift, get, raise in Hrun. simpl in Hrun.
    destruct (encode E [query]) as [qe|e] eqn:Hqe; simpl in Hrun.
    + destruct (faiss E FaissImport) as [[]|e] eqn:Himport; simpl in Hrun;
        [|injection Hrun as <- <-; simpl; rewrite ?Hix1, ?Hc1, ?Hm1;
          split; [exact Hix|]; split; [reflexivity|]; split; [reflexivity|];
          left; exists e; split; [reflexivity|];
          right; right; right; left; eauto].
      destruct (faiss E (FaissNormalizeL2 qe)) as [[]|e] eqn:Hnorm;
        simpl in Hrun;
        [|injection Hrun as <- <-; simpl; rewrite ?Hix1, ?Hc1, ?Hm1;
          split; [exact Hix|]; split; [reflexivity|]; split; [reflexivity|];
          left; exists e; split; [reflexivity|];
          right; right; right; left; eauto].
      rewrite Hix1, Hix in Hrun.
      destruct (search E ix (List.map (normalize_L2 E) qe) top_k)
        as [found|e] eqn:Hsearch; simpl in Hrun;
        injection Hrun as <- <-; simpl; rewrite ?Hix1, ?Hc1, ?Hm1;
        (split; [first [exact Hix|reflexivity]|]); (split; [reflexivity|]);
        (split; [reflexivity|]).
      * right. eexists. exists found. split; [exact Hsearch|reflexivity].
      * left. exists e. split; [reflexivity|].
        right. right. right. right. eauto.
    + injection Hrun as <- <-. simpl. rewrite ?Hix1, ?Hc1, ?Hm1.
      split; [exact Hix|]. split; [reflexivity|]. split; [reflexivity|].
      left. exists e. split; [reflexivity|]. right. right. left. eauto.
  - injection Hrun as <- <-. rewrite ?Hix1, ?Hc1, ?Hm1.
    split; [exact Hix|]. split; [reflexivity|]. split; [reflexivity|].
    left. exists e. split; [reflexivity|]. left.
    eapply init_embedding_model_raises. exact Hmodel.
Qed.

(** From a state between two calls, [retrieve] passes on the failure of
    a call to the outside, or it reaches the loop with an index and two
    parallel, non-empty lists. *)
Lemma retrieve_outcome (query : string) (top_k : Z) (s s' : State Vec)
    (r : result (list RetrievalResult)) :
  store_ready s ->
  encoder_contract E ->
  retrieve E query top_k s = (r, s') ->
  (exists e, r = Raise e /\ external_failure E top_k e) \/
  (exists ix q found,
     index s' = Some ix /\
     search E ix q top_k = Ok found /\
     chunks s' <> [] /\
     List.length (chunk_metadata s') = List.length (chunks s') /\
     r = retrieve_loop (chunks s') (chunk_metadata s') found.1 [] 0 found.2).
Proof.
  intros Hready Henc Hrun.
  assert (forall s0 ix,
            index s0 = Some ix -> chunks s0 <> [] ->
            List.length (chunk_metadata s0) = List.length (chunks s0) ->
            retrieve E query top_k s0 = (r, s') ->
            (exists e, r = Raise e /\ external_failure E top_k e) \/
            (exists ix q found,
               index s' = Some ix /\
               search E ix q top_k = Ok found /\
               chunks s' <> [] /\
               List.length (chunk_metadata s') = List.length (chunks s') /\
               r = retrieve_loop (chunks s') (chunk_metadata s')
                     found.1 [] 0 found.2)) as Hbuilt.
  { intros s0 ix Hix Hne Hpar Hrun0.
    destruct (retrieve_built_outcome query top_k s0 s' ix r Hix Hrun0)
      as (Hix' & Hc & Hm & [Hfail|(q & found & Hsearch & ->)]);
      [now left|].
    right. exists ix, q, found. rewrite Hc, Hm. auto. }
  destruct (index s) as [ix|] eqn:Hix.
  - destruct Hready as [Hnone|[Hne Hpar]]; [congruence|].
    exact (Hbuilt s ix Hix Hne Hpar Hrun).
  - destruct (init_vector_store E s) as [[ix|e] s1] eqn:Hinit.
    + rewrite (retrieve_after_build query top_k s s1 ix Hix Hinit) in Hrun.
      destruct (init_vector_store_ready s s1 ix Hix Hinit) as (Hix1 & Hne & Hpar).
      exact (Hbuilt s1 ix Hix1 Hne Hpar Hrun).
    + rewrite (retrieve_build_fails query top_k s s1 e Hix Hinit) in Hrun.
      injection Hrun as <- <-. left. exists e. split; [reflexivity|].
      exact (init_vector_store_raises top_k s s1 e Henc Hix Hinit).
Qed.

Lemma init_vector_store_raise_ready (s s' : State Vec) (e : exn) :
  index s = None ->
  init_vector_store E s = (Raise e, s') ->
  store_ready s'.
Proof.
  intros Hnone Hrun.
  destruct (init_vector_store_Raise_inv E s s' e Hnone Hrun)
    as [[Hix _]|(md_docs & rows & d & _ & _ & _ & _ & Hc & Hm & _)].
  - now left.
  - right. rewrite Hc, Hm. apply build_chunks_ready.
Qed.

Lemma initial_state_ready : store_ready (@initial_state Vec).
Proof. left. reflexivity. Qed.

(** The states between two calls stay as [store_ready] describes. *)
Lemma retrieve_keeps_ready (query : string) (top_k : Z) (s : State Vec) :
  store_ready s -> store_ready (retrieve E query top_k s).2.
Proof.
  intros Hready.
  destruct (retrieve E query top_k s) as [r s'] eqn:Hrun. simpl.
  destruct (index s) as [ix|] eqn:Hix.
  - destruct Hready as [Hnone|[Hne Hpar]]; [congruence|].
    destruct (retrieve_built_outcome query top_k s s' ix r Hix Hrun)
      as (_ & Hc & Hm & _).
    right. now rewrite Hc, Hm.
  - destruct (init_vector_store E s) as [[ix|e] s1] eqn:Hinit.
    + rewrite (retrieve_after_build query top_k s s1 ix Hix Hinit) in Hrun.
      destruct (init_vector_store_ready s s1 ix Hix Hinit)
        as (Hix1 & Hne & Hpar).
      destruct (retrieve_built_outcome query top_k s1 s' ix r Hix1 Hrun)
        as (_ & Hc & Hm & _).
      right. now rewrite Hc, Hm.
    + rewrite (retrieve_build_fails query top_k s s1 e Hix Hinit) in Hrun.
      injection Hrun as _ <-.
      eapply init_vector_store_raise_ready; eassumption.
Qed.

End Run.

(** The stand-in index keeps the contract of [IndexFlatIP]. *)
Lemma flat_search_widths : index_widths faiss_env.
Proof.
  intros ix q k found. unfold faiss_env, search, flat_search.
  destruct (k <=? 0); [discriminate|]. intros [= <-]. simpl.
  now rewrite !List.length_app, !List.length_map, !List.repeat_length.
Qed.

Lemma flat_search_labels : index_labels faiss_env.
Proof.
  intros ix q k found. unfold faiss_env, search, flat_search.
  destruct (k <=? 0); [discriminate|]. intros [= <-]. simpl.
  apply Forall_app. split.
  - apply List.Forall_forall. intros idx Hidx.
    apply List.in_map_iff in Hidx as (j & <- & _). lia.
  - apply List.Forall_forall. intros idx Hidx.
    apply List.repeat_spec in Hidx. lia.
Qed.

Lemma identity_encoder_contract : encoder_contract faiss_env.
Proof. intros texts rows [= <-]. reflexivity. Qed.

(** C1.  From a state between two calls, with an encoder that returns a
    row for each text and an index that returns scores and labels of
    one width, its labels being stored positions or the filler [-1],
    [retrieve] either passes on the failure of a call to the outside,
    or it returns: its own list accesses never raise.  The labels at or
    beyond the chunk count are skipped, the results being as many as
    the labels below it, and every result holds the text and the
    metadata found at one position below the chunk count. *)
Theorem retrieve_skips_labels_beyond_count {Vec : Type} (E : Env Vec)
    (query : string) (top_k : Z) (s s' : State Vec)
    (r : result (list RetrievalResult)) :
  store_ready s ->
  encoder_contract E ->
  index_widths E ->
  index_labels E ->
  retrieve E query top_k s = (r, s') ->
  (exists e, r = Raise e /\ external_failure E top_k e) \/
  (exists ix q found rs,
     index s' = Some ix /\
     search E ix q top_k = Ok found /\
     r = Ok rs /\
     List.length rs =
       List.length
         (List.filter
            (fun idx => (idx <? Z.of_nat (List.length (chunks s')))%Z)
            found.2) /\
     Forall (fun res => exists pos : nat,
               (pos < List.length (chunks s'))%nat /\
               chunks s' !! pos = Some (res_content res) /\
               chunk_metadata s' !! pos = Some (res_metadata res)) rs).
Proof.
  intros Hready Henc Hwidths Hlabels0 Hrun.
  destruct (retrieve_outcome E query top_k s s' r Hready Henc Hrun)
    as [Hfail|(ix & q & found & Hix & Hsearch & Hne & Hpar & ->)];
    [now left|].
  right. pose proof (Hwidths ix q top_k found Hsearch) as Hlen.
  pose proof (Hlabels0 ix q top_k found Hsearch) as Hlabels.
  assert (List.length (chunks s') <> 0%nat) as Hpos
    by (destruct (chunks s'); [congruence|discriminate]).
  destruct (retrieve_loop_completes (chunks s') (chunk_metadata s') found.1
              Hpar found.2 [] 0%nat) as [rs Hloop].
  { eapply List.Forall_impl; [|exact Hlabels]. simpl. intros idx Hge. lia. }
  { simpl. lia. }
  exists ix, q, found, rs. rewrite Hloop.
  split; [exact Hix|]. split; [exact Hsearch|]. split; [reflexivity|].
  split.
  - apply retrieve_loop_count in Hloop. exact Hloop.
  - destruct (retrieve_loop_positions (chunks s') (chunk_metadata s') found.1
                Hpar found.2 [] rs 0%nat Hloop) as (added & -> & Hall).
    simpl. eapply List.Forall_impl; [|exact Hall].
    intros res (pos & j & Hlt & Hc & Hm & _). now exists pos.
Qed.

Lemma retrieve_skips_labels_beyond_count_witness :
  exists rs,
    (retrieve faiss_env "how to borrow" 11 initial_state).1 = Ok rs /\
    List.length rs = 11%nat.
Proof.
  destruct (retrieve faiss_env "how to borrow" 11 initial_state)
    as [r s'] eqn:Hrun.
  destruct (retrieve_skips_labels_beyond_count faiss_env "how to borrow" 11
              initial_state s' r)
    as [(e & -> & _)|(ix & q & found & rs & _ & _ & -> & _)].
  - left. reflexivity.
  - exact identity_encoder_contract.
  - exact flat_search_widths.
  - exact flat_search_labels.
  - exact Hrun.
  - exfalso. vm_compute in Hrun. discriminate Hrun.
  - exists rs. split; [reflexivity|].
    vm_compute in Hrun. injection Hrun as <- _. reflexivity.
Defined.

(** C2.  From a state between two calls, with an encoder and an index
    that return arrays of the right shape, [retrieve] does not skip a
    negative label.  Unless a call to the outside failed, either some
    label is below [-len(chunks)] and [retrieve] raises [IndexError], or
    it returns and, for every column with a negative label [idx], the
    results contain the chunk and the metadata entry at position
    [len(chunks) + idx], counted from the end, with the score of that
    column: for the filler label [-1] these are the last chunk and the
    last metadata entry. *)
Theorem retrieve_reads_negative_label_from_end {Vec : Type} (E : Env Vec)
    (query : string) (top_k : Z) (s s' : State Vec)
    (r : result (list RetrievalResult)) :
  store_ready s ->
  encoder_contract E ->
  index_widths E ->
  retrieve E query top_k s = (r, s') ->
  (exists e, r = Raise e /\ external_failure E top_k e) \/
  (exists ix q found,
     index s' = Some ix /\
     search E ix q top_k = Ok found /\
     chunks s' <> [] /\
     ((r = Raise IndexError /\
       Exists (fun idx => idx < - Z.of_nat (List.length (chunks s'))) found.2) \/
      (exists rs,
         r = Ok rs /\
         forall (i : nat) (idx : Z),
           found.2 !! i = Some idx -> idx < 0 ->
           exists (pos : nat) c m score,
             Z.of_nat pos = Z.of_nat (List.length (chunks s')) + idx /\
             chunks s' !! pos = Some c /\
             chunk_metadata s' !! pos = Some m /\
             found.1 !! i = Some score /\
             In {| res_content := c; res_score := score; res_metadata := m |}
                rs /\
             (idx = -1 ->
              last (chunks s') = Some c /\
              last (chunk_metadata s') = Some m)))).
Proof.
  intros Hready Henc Hwidths Hrun.
  destruct (retrieve_outcome E query top_k s s' r Hready Henc Hrun)
    as [Hfail|(ix & q & found & Hix & Hsearch & Hne & Hpar & ->)];
    [now left|].
  right. pose proof (Hwidths ix q top_k found Hsearch) as Hlen.
  exists ix, q, found.
  split; [exact Hix|]. split; [exact Hsearch|]. split; [exact Hne|].
  destruct (List.Exists_dec
              (fun idx => idx < - Z.of_nat (List.length (chunks s'))) found.2)
    as [Hlow|Hnone].
  { intros idx. destruct (Z_lt_dec idx (- Z.of_nat (List.length (chunks s'))));
      [now left|now right]. }
  - left. split; [|exact Hlow].
    now apply retrieve_loop_fails.
  - right. apply List.Forall_Exists_neg in Hnone.
    destruct (retrieve_loop_completes (chunks s') (chunk_metadata s') found.1
                Hpar found.2 [] 0%nat) as [rs Hloop].
    { eapply List.Forall_impl; [|exact Hnone]. simpl. intros idx Hge. lia. }
    { simpl. lia. }
    exists rs. split; [exact Hloop|]. intros i idx Hi Hneg.
    assert (- Z.of_nat (List.length (chunks s')) <= idx) as Hlow.
    { rewrite List.Forall_forall in Hnone.
      assert (~ idx < - Z.of_nat (List.length (chunks s'))); [|lia].
      apply Hnone. apply list_elem_of_In. eapply list_elem_of_lookup_2.
      exact Hi. }
    destruct (retrieve_loop_member (chunks s') (chunk_metadata s') found.1
                found.2 [] rs 0%nat i idx Hloop Hi)
      as (c & score & m & Hc & Hm & Hscore & Hin); [lia|].
    apply getitem_Ok_inv in Hc as (pos & _ & Hc & Hpos).
    apply getitem_Ok_inv in Hm as (pos' & _ & Hm & Hpos').
    destruct (idx <? 0) eqn:Hlt; [|apply Z.ltb_ge in Hlt; lia].
    assert (pos' = pos) as -> by lia.
    exists pos, c, m, score.
    split; [lia|]. split; [exact Hc|]. split; [exact Hm|].
    split; [exact Hscore|]. split; [exact Hin|].
    intros ->. rewrite !last_lookup.
    replace (Nat.pred (List.length (chunks s'))) with pos by lia.
    replace (Nat.pred (List.length (chunk_metadata s'))) with pos by lia.
    split; assumption.
Qed.

Lemma retrieve_reads_negative_label_from_end_witness :
  exists rs c m,
    (retrieve faiss_env "how to borrow" 11 initial_state).1 = Ok rs /\
    last (chunks (retrieve faiss_env "how to borrow" 11 initial_state).2)
      = Some c /\
    last (chunk_metadata (retrieve faiss_env "how to borrow" 11 initial_state).2)
      = Some m /\
    In {| res_content := c; res_score := FLT_LOWEST; res_metadata := m |} rs.
Proof.
  destruct (retrieve faiss_env "how to borrow" 11 initial_state)
    as [r s'] eqn:Hrun.
  destruct (retrieve_reads_negative_label_from_end faiss_env "how to borrow"
              11 initial_state s' r)
    as [(e & -> & _)
       |(ix & q & found & Hix & Hsearch & _ &
         [[-> _]|(rs & -> & Hneg)])].
  - left. reflexivity.
  - exact identity_encoder_contract.
  - exact flat_search_widths.
  - exact Hrun.
  - exfalso. vm_compute in Hrun. discriminate Hrun.
  - exfalso. vm_compute in Hrun. discriminate Hrun.
  - assert (found.2 !! 10%nat = Some (-1) /\
            found.1 !! 10%nat = Some FLT_LOWEST) as [Hlabel Hscore].
    { unfold faiss_env, search, flat_search in Hsearch. simpl in Hsearch.
      injection Hsearch as <-. cbn [fst snd].
      assert (List.length (index_vectors ix) = 10%nat) as ->;
        [|split; reflexivity].
      pose proof Hrun as Hstate. vm_compute in Hstate.
      injection Hstate as _ Hstate. rewrite <- Hstate in Hix.
      injection Hix as <-. reflexivity. }
    destruct (Hneg 10%nat (-1) Hlabel)
      as (pos & c & m & score & _ & _ & _ & Hs & Hin & Hlast); [lia|].
    destruct (Hlast eq_refl) as [Hc Hm].
    rewrite Hscore in Hs. injection Hs as <-.
    exists rs, c, m. split; [reflexivity|]. split; [exact Hc|].
    split; [exact Hm|exact Hin].
Defined.

End RetrieveRunFacts.

(** ** Start-up and the requests after it *)

Module StartupFacts.
Import Py PyFacts RagServer Scenarios StoreFacts ChatFacts ServerFacts.

(** X10.  When the pre-initialization of [__main__] completes, both
    models are loaded and the index is built, each exactly once: the
    calls made to the embedder, the documents and the language model
    are the load of the embedder, the read of the documents, one
    encoding of the whole chunk list and the load of the language
    model, in this order. *)
Theorem initialize_loads_once {Vec : Type} (E : Env Vec) (s : State Vec) :
  initialize E initial_state = (Ok tt, s) ->
  (exists m ix l,
     embed_model s = Some m /\ index s = Some ix /\ llm s = Some l /\
     List.length (index_vectors ix) <> 0%nat) /\
  calls s =
    [EvSentenceTransformer; EvReadDocs; EvEncode (chunks s); EvFromPretrained].
Proof.
  unfold initialize, init_embedding_model, init_vector_store, init_llm.
  generalize KNOWLEDGE_BASE as kb. intros kb.
  unfold bind, get, ret, log, lift, raise, set_embed_model, set_chunks,
    set_index, set_llm, initial_state. simpl.
  destruct (SentenceTransformer E) as [m|]; [|discriminate]. simpl.
  destruct (faiss E FaissImport) as [[]|]; [|discriminate]. simpl.
  destruct (load_markdown_docs (DOCS_DIR E)) as [md_docs|]; [|discriminate].
  simpl.
  destruct (encode E _) as [embeddings|]; [|discriminate]. simpl.
  destruct (shape1 E embeddings) as [d|] eqn:Hd; [|discriminate]. simpl.
  destruct (faiss E (FaissIndexFlatIP d)) as [[]|]; [|discriminate]. simpl.
  destruct (faiss E (FaissNormalizeL2 embeddings)) as [[]|]; [|discriminate].
  simpl.
  destruct (faiss E (FaissAdd _)) as [[]|]; [|discriminate]. simpl.
  destruct (model_path_exists E); [|discriminate]. simpl.
  destruct (from_pretrained E) as [l|]; [|discriminate]. simpl.
  intros [= <-]. simpl. split; [|reflexivity].
  exists m, {| index_d := d;
               index_vectors := List.map (normalize_L2 E) embeddings |}, l.
  repeat split. simpl. rewrite List.length_map.
  destruct embeddings; [discriminate|simpl; lia].
Qed.

Lemma initialize_loads_once_witness :
  calls (initialize faiss_env initial_state).2 =
    [EvSentenceTransformer; EvReadDocs;
     EvEncode (chunks (initialize faiss_env initial_state).2);
     EvFromPretrained].
Proof.
  destruct (initialize faiss_env initial_state) as [r s] eqn:Hrun.
  assert (r = Ok tt) as ->.
  { vm_compute in Hrun. injection Hrun as <- _. reflexivity. }
  destruct (initialize_loads_once faiss_env s Hrun) as [_ Hcalls].
  exact Hcalls.
Defined.

(** X11.  With both models loaded and the index built, a [/chat]
    request with a message that is not blank changes no global, and its
    calls to the outside are, in order, the encoding of the message, one
    search for 3 neighbours and one call of the language model on the
    prompt built from the retrieved chunks, stopping at the first that
    raises; nothing is loaded or rebuilt. *)
Theorem chat_after_startup {Vec : Type} (E : Env Vec)
    (data : gmap string json) (message : string) (s : State Vec)
    (m : EmbedModel) (ix : Index Vec) (l : Llm) :
  embed_model s = Some m -> index s = Some ix -> llm s = Some l ->
  data !! "message" = Some (JStr message) ->
  strip message <> "" ->
  let s' := (chat E data s).2 in
  let q := strip message in
  globals s' = globals s /\
  (calls s' = (calls s ++ [EvEncode [q]])%list \/
   calls s' = (calls s ++ [EvEncode [q]; EvSearch 3])%list \/
   exists context_chunks,
     (retrieve E q 3 s).1 = Ok context_chunks /\
     calls s' =
       (calls s ++ [EvEncode [q]; EvSearch 3;
                    EvLlm (build_prompt q context_chunks)])%list).
Proof.
  intros Hm Hix Hl Hmsg Hq s' q. subst s'.
  destruct (chat E data s) as [r s'] eqn:Hchat. simpl.
  rewrite (chat_valid_message E data message s Hmsg Hq) in Hchat. fold q in Hchat.
  destruct (retrieve_built E q 3 s m ix Hm Hix) as (Hg & Hc).
  unfold try_except, bind at 1 in Hchat.
  destruct (retrieve E q 3 s) as [[ctx|e] s1] eqn:Hretr; simpl in Hg, Hc.
  - destruct Hc as [[_ Hno]|Hc]; [now destruct (Hno ctx)|].
    assert (llm s1 = Some l) as Hl1.
    { unfold globals in Hg. injection Hg as -> _ _ _ _. exact Hl. }
    destruct (generate_response_loaded E q ctx s1 l Hl1) as (Hg2 & Hc2).
    unfold bind at 1 in Hchat.
    destruct (generate_response E q ctx s1) as [[resp|e] s2];
      simpl in Hg2, Hc2.
    + unfold ret in Hchat. injection Hchat as <- <-.
      split; [congruence|]. right. right. exists ctx.
      split; [reflexivity|]. rewrite Hc2, Hc, <- app_assoc. reflexivity.
    + assert (s' = s2) as ->
        by (destruct (is_Exception e); unfold ret in Hchat; congruence).
      split; [congruence|]. right. right. exists ctx.
      split; [reflexivity|]. rewrite Hc2, Hc, <- app_assoc. reflexivity.
  - assert (s' = s1) as ->
      by (destruct (is_Exception e); unfold ret in Hchat; congruence).
    split; [exact Hg|].
    destruct Hc as [[Hc _]|Hc]; [now left|right; now left].
Qed.

Lemma chat_after_startup_witness :
  let s := (initialize faiss_env initial_state).2 in
  globals (chat faiss_env borrow_request s).2 = globals s /\
  List.length (calls (chat faiss_env borrow_request s).2) = 7%nat.
Proof.
  intros s.
  destruct (chat_after_startup faiss_env borrow_request " How do I borrow? "
              s AllMiniLM
              {| index_d := 384; index_vectors := chunks s |} Mistral)
    as (Hg & Hc).
  - reflexivity.
  - reflexivity.
  - reflexivity.
  - vm_compute. reflexivity.
  - vm_compute. discriminate.
  - split; [exact Hg|].
    destruct Hc as [Hc|[Hc|(ctx & _ & Hc)]]; rewrite Hc, List.length_app;
      [exfalso; vm_compute in Hc; discriminate Hc
      |exfalso; vm_compute in Hc; discriminate Hc
      |reflexivity].
Defined.

End StartupFacts.

(** ** More on markdown loading *)

Module LoadFacts.
Import Py PyFacts RagServer Scenarios MarkdownFacts.

(** No line of [s.split('\n')] contains a line break. *)
Lemma split_lines_no_newline (s : string) :
  forallb (fun l => negb (has_newline l)) (split_lines s) = true.
Proof.
  induction s as [|c r IH]; simpl; [reflexivity|].
  destruct (Ascii.eqb c newline) eqn:Hc; simpl; [exact IH|].
  destruct (split_lines r) as [|h t]; simpl in *; [now rewrite Hc|].
  now rewrite Hc.
Qed.

Lemma join_lines_cons_char (c : ascii) (h : string) (t : list string) :
  join_lines (String c h :: t) = String c (join_lines (h :: t)).
Proof. destruct t; reflexivity. Qed.

(** Joining the lines of a text gives the text back. *)
Lemma join_lines_split_lines (s : string) : join_lines (split_lines s) = s.
Proof.
  induction s as [|c r IH]; simpl; [reflexivity|].
  destruct (Ascii.eqb_spec c newline) as [->|Hc].
  - pose proof (split_lines_nonempty r) as Hne.
    destruct (split_lines r) as [|h t]; [congruence|].
    change (join_lines ("" :: h :: t))
      with (String newline (join_lines (h :: t))).
    now rewrite IH.
  - pose proof (split_lines_nonempty r) as Hne.
    destruct (split_lines r) as [|h t]; [congruence|].
    now rewrite join_lines_cons_char, IH.
Qed.

(** The lines a splitter holds: those of its sections, then the ones
    gathered for the current section. *)
Lemma flush_lines (sp : Splitter) :
  forallb (fun l => negb (has_newline l)) (current_content sp) = true ->
  flat_map (fun d => split_lines (doc_content d)) (flush sp) =
    (flat_map (fun d => split_lines (doc_content d)) (sections sp)
       ++ current_content sp)%list.
Proof.
  intros Hnl. unfold flush. destruct (current_content sp) as [|l ls] eqn:Hcc.
  - now rewrite app_nil_r.
  - rewrite flat_map_app. simpl. rewrite app_nil_r.
    now rewrite split_lines_join_lines.
Qed.

Lemma fold_split_step_lines (lines : list string) :
  forall sp : Splitter,
  forallb (fun l => negb (has_newline l)) lines = true ->
  forallb (fun l => negb (has_newline l)) (current_content sp) = true ->
  let sp' := fold_left split_step lines sp in
  forallb (fun l => negb (has_newline l)) (current_content sp') = true /\
  (flat_map (fun d => split_lines (doc_content d)) (sections sp')
     ++ current_content sp')%list =
  (flat_map (fun d => split_lines (doc_content d)) (sections sp)
     ++ current_content sp
     ++ List.filter (fun l => negb (startswith "## " l)) lines)%list.
Proof.
  induction lines as [|l rest IH]; intros sp Hnl Hcc; simpl.
  - split; [exact Hcc|]. now rewrite app_nil_r.
  - simpl in Hnl. apply andb_true_iff in Hnl as [Hl Hrest].
    destruct (IH (split_step sp l) Hrest) as [Hcc' Heq].
    + unfold split_step. destruct (startswith "## " l); simpl; [reflexivity|].
      rewrite forallb_app, Hcc. simpl. now rewrite Hl.
    + split; [exact Hcc'|]. rewrite Heq. unfold split_step.
      destruct (startswith "## " l); simpl.
      * rewrite flush_lines by exact Hcc. now rewrite <- app_assoc.
      * now rewrite <- !app_assoc.
Qed.

(** X12.  Splitting a file into sections loses and reorders no text:
    the lines of the section bodies, in order, are exactly the lines of
    the file that are not second-level headings. *)
Theorem split_sections_keeps_lines (stem content : string) :
  flat_map (fun d => split_lines (doc_content d)) (split_sections stem content)
  = List.filter (fun l => negb (startswith "## " l)) (split_lines content).
Proof.
  unfold split_sections.
  destruct (fold_split_step_lines (split_lines content)
              {| sections := []; current_title := stem;
                 current_content := [] |}
              (split_lines_no_newline content) eq_refl) as [Hcc Heq].
  rewrite flush_lines by exact Hcc. exact Heq.
Qed.

(** X13.  A file with no second-level heading is one section, titled
    with the file stem, whose body is the whole text; this holds for the
    empty file too. *)
Theorem split_sections_no_heading (stem content : string) :
  forallb (fun l => negb (startswith "## " l)) (split_lines content) = true ->
  split_sections stem content =
    [{| doc_title := stem; doc_content := content |}].
Proof.
  intros Hbody. unfold split_sections.
  rewrite fold_split_step_body by exact Hbody. unfold flush. simpl.
  pose proof (split_lines_nonempty content) as Hne.
  pose proof (join_lines_split_lines content) as Hjoin.
  destruct (split_lines content) as [|l ls]; [congruence|].
  now rewrite Hjoin.
Qed.

Lemma split_sections_no_heading_witness :
  split_sections "notes" "" = [{| doc_title := "notes"; doc_content := "" |}] /\
  split_sections "notes" ("### Details" ++ NL ++ "##No space") =
    [{| doc_title := "notes";
        doc_content := "### Details" ++ NL ++ "##No space" |}].
Proof.
  split.
  - apply (split_sections_no_heading "notes" ""). reflexivity.
  - apply (split_sections_no_heading "notes"
             ("### Details" ++ NL ++ "##No space")). reflexivity.
Defined.

(** X14.  A heading with no line of its own gives no section: a heading
    directly followed by another heading can be removed without changing
    the sections, and so can a heading on the last line when other lines
    come before it.  A file that is only a heading has no section at
    all, whereas the empty file has one, with the stem as its title and
    an empty text. *)
Theorem split_sections_drops_empty_heading (stem t1 t2 : string)
    (pre post : list string) :
  forallb (fun l => negb (has_newline l))
    (pre ++ ("## " +:+ t1) :: ("## " +:+ t2) :: post)%list = true ->
  split_sections stem
    (join_lines (pre ++ ("## " +:+ t1) :: ("## " +:+ t2) :: post)%list) =
  split_sections stem (join_lines (pre ++ ("## " +:+ t2) :: post)%list) /\
  (pre <> [] ->
   split_sections stem (join_lines (pre ++ [("## " +:+ t1)])%list) =
   split_sections stem (join_lines pre)) /\
  split_sections stem ("## " +:+ t1) = [] /\
  split_sections stem "" = [{| doc_title := stem; doc_content := "" |}].
Proof.
  intros Hnl.
  assert (forallb (fun l => negb (has_newline l)) pre = true /\
          negb (has_newline ("## " +:+ t1)) = true /\
          forallb (fun l => negb (has_newline l)) (("## " +:+ t2) :: post)
            = true) as (Hpre & Ht1 & Hpost).
  { rewrite forallb_app in Hnl. apply andb_true_iff in Hnl as [Hpre Hnl].
    simpl in Hnl. apply andb_true_iff in Hnl as [Ht1 Hnl]. auto. }
  split; [|split; [|split]].
  - unfold split_sections.
    rewrite !split_lines_join_lines;
      [|now destruct pre|rewrite forallb_app, Hpre; exact Hpost
       |now destruct pre|exact Hnl].
    rewrite !fold_left_app_cons. simpl.
    rewrite !split_step_heading. reflexivity.
  - intros Hne. unfold split_sections.
    rewrite !split_lines_join_lines;
      [|exact Hne|exact Hpre|now destruct pre
       |rewrite forallb_app, Hpre; cbn [forallb andb]; now rewrite Ht1].
    rewrite List.fold_left_app. simpl. rewrite split_step_heading.
    reflexivity.
  - unfold split_sections.
    change ("## " +:+ t1) with (join_lines [("## " +:+ t1)]).
    rewrite split_lines_join_lines;
      [|discriminate|cbn [forallb andb]; now rewrite Ht1].
    simpl. rewrite split_step_heading. reflexivity.
  - reflexivity.
Qed.

Lemma split_sections_drops_empty_heading_witness :
  split_sections "guide" ("intro" ++ NL ++ "## A" ++ NL ++ "## B" ++ NL ++ "body")
  = [{| doc_title := "guide"; doc_content := "intro" |};
     {| doc_title := "B"; doc_content := "body" |}] /\
  split_sections "guide" "## A" = [].
Proof.
  destruct (split_sections_drops_empty_heading "guide" "A" "B"
              ["intro"] ["body"] eq_refl) as (Hdrop & _ & Honly & _).
  split; [|exact Honly].
  change (split_sections "guide"
            (join_lines (["intro"] ++ ("## " +:+ "A") :: ("## " +:+ "B")
                           :: ["body"])%list) =
          [{| doc_title := "guide"; doc_content := "intro" |};
           {| doc_title := "B"; doc_content := "body" |}]).
  rewrite Hdrop. reflexivity.
Defined.

(** X15.  A file whose read raises an [Exception] is skipped and the
    other files are still loaded: the documents are the sections of the
    readable files, in directory order. *)
Theorem load_markdown_docs_skips_unreadable (files : list MdFile) :
  (forall f e, In f files -> md_read_text f = Raise e ->
     is_Exception e = true) ->
  load_markdown_docs (Some files) =
    Ok (flat_map (fun f => match md_read_text f with
                           | Ok content => split_sections (md_stem f) content
                           | Raise _ => []
                           end) files).
Proof.
  intros Hexn. unfold load_markdown_docs.
  assert (forall acc,
            load_files acc files =
            Ok (acc ++ flat_map
                         (fun f => match md_read_text f with
                                   | Ok content =>
                                       split_sections (md_stem f) content
                                   | Raise _ => []
                                   end) files)%list) as H; [|apply H].
  induction files as [|f rest IH]; intros acc; simpl.
  - now rewrite app_nil_r.
  - unfold load_file.
    destruct (md_read_text f) as [content|e] eqn:Hread.
    + rewrite IH; [now rewrite <- app_assoc|].
      intros g e Hg. apply Hexn. now right.
    + rewrite (Hexn f e (or_introl eq_refl) Hread).
      rewrite IH; [now rewrite app_nil_r|].
      intros g e' Hg. apply Hexn. now right.
Qed.

Lemma load_markdown_docs_skips_unreadable_witness :
  load_markdown_docs (DOCS_DIR docs_env) =
    Ok (split_sections "guide" guide_md).
Proof.
  unfold docs_env, DOCS_DIR.
  rewrite load_markdown_docs_skips_unreadable.
  - simpl. rewrite ?app_nil_r. reflexivity.
  - intros f e [<-|[<-|[]]]; simpl; [discriminate|].
    intros [= <-]. reflexivity.
Defined.

End LoadFacts.

(** ** More on the thread benchmark *)

Module BenchRunFacts.
Import Py BenchThreads Scenarios BenchFacts.

Local Open Scope Q_scope.

(** [min] and [max] return an element that bounds the list. *)
Lemma fold_min_spec (xs : list Q) :
  forall x : Q,
  In (fold_left (fun m y => if Qltb y m then y else m) xs x) (x :: xs) /\
  fold_left (fun m y => if Qltb y m then y else m) xs x <= x /\
  forall y, In y xs ->
    fold_left (fun m y => if Qltb y m then y else m) xs x <= y.
Proof.
  induction xs as [|y rest IH]; intros x; cbn [fold_left].
  - split; [now left|]. split; [apply Qle_refl|intros y []].
  - destruct (Qltb y x) eqn:Hlt.
    + apply Qltb_true in Hlt. destruct (IH y) as (Hin & Hle & Hall).
      split; [right; exact Hin|]. split.
      * eapply Qle_trans; [exact Hle|apply Qlt_le_weak; exact Hlt].
      * intros z [<-|Hz]; [exact Hle|now apply Hall].
    + apply Qltb_false in Hlt. destruct (IH x) as (Hin & Hle & Hall).
      split; [destruct Hin as [Hin|Hin]; [left; exact Hin|right; right; exact Hin]|].
      split; [exact Hle|].
      intros z [<-|Hz]; [eapply Qle_trans; eassumption|now apply Hall].
Qed.

Lemma fold_max_spec (xs : list Q) :
  forall x : Q,
  In (fold_left (fun m y => if Qltb m y then y else m) xs x) (x :: xs) /\
  x <= fold_left (fun m y => if Qltb m y then y else m) xs x /\
  forall y, In y xs ->
    y <= fold_left (fun m y => if Qltb m y then y else m) xs x.
Proof.
  induction xs as [|y rest IH]; intros x; cbn [fold_left].
  - split; [now left|]. split; [apply Qle_refl|intros y []].
  - destruct (Qltb x y) eqn:Hlt.
    + apply Qltb_true in Hlt. destruct (IH y) as (Hin & Hle & Hall).
      split; [right; exact Hin|]. split.
      * eapply Qle_trans; [apply Qlt_le_weak; exact Hlt|exact Hle].
      * intros z [<-|Hz]; [exact Hle|now apply Hall].
    + apply Qltb_false in Hlt. destruct (IH x) as (Hin & Hle & Hall).
      split; [destruct Hin as [Hin|Hin]; [left; exact Hin|right; right; exact Hin]|].
      split; [exact Hle|].
      intros z [<-|Hz]; [eapply Qle_trans; eassumption|now apply Hall].
Qed.

(** X16.  For a candidate that completes, [min_time] and [max_time] are
    two of its measured durations, and every measured duration lies
    between them. *)
Theorem benchmark_min_max (T : Trial) (n runs : Z) (r : Stats) :
  benchmark T n runs = Ok r ->
  exists times tokens_list,
    run_loop T ([], []) (seq 0 (Z.to_nat runs)) = Ok (times, tokens_list) /\
    In (min_time r) times /\ In (max_time r) times /\
    forall t, In t times -> min_time r <= t /\ t <= max_time r.
Proof.
  unfold benchmark.
  destruct (Llama T); [|discriminate].
  destruct (warmup T); [|discriminate].
  destruct (run_loop T ([], []) (seq 0 (Z.to_nat runs)))
    as [[times tokens_list]|]; [|discriminate].
  destruct (truediv (sum times) (len times)); [|discriminate].
  destruct (truediv (sum_int tokens_list) (len tokens_list)); [|discriminate].
  destruct (truediv _ _); [|discriminate].
  destruct times as [|x xs]; [discriminate|]. simpl.
  intros [= <-]. simpl. exists (x :: xs), tokens_list.
  destruct (fold_min_spec xs x) as (Hmin & Hminx & Hminall).
  destruct (fold_max_spec xs x) as (Hmax & Hmaxx & Hmaxall).
  split; [reflexivity|]. split; [exact Hmin|]. split; [exact Hmax|].
  intros t [<-|Ht]; split; auto.
Qed.

Lemma benchmark_min_max_witness :
  exists r, benchmark (lab_world 8) 8 3 = Ok r /\
    min_time r == 1 /\ max_time r == 3.
Proof.
  destruct (benchmark (lab_world 8) 8 3) as [r|] eqn:Hb;
    [|vm_compute in Hb; discriminate Hb].
  destruct (benchmark_min_max (lab_world 8) 8 3 r Hb)
    as (times & tokens_list & _).
  exists r. split; [reflexivity|].
  vm_compute in Hb. injection Hb as <-. split; reflexivity.
Defined.

(** X17.  With [--runs] zero or negative no timed call is made, the mean
    divides by zero, and every candidate whose model loads is excluded:
    the summary is empty and nothing is recommended. *)
Theorem main_without_runs (world : Z -> Trial) (runs : Z) :
  (runs <= 0)%Z ->
  (forall n e, In n thread_counts ->
     Llama (world n) = Raise e \/ warmup (world n) = Raise e ->
     is_Exception e = true) ->
  (forall n, (exists lt, Llama (world n) = Ok lt) -> warmup (world n) = Ok tt ->
     benchmark (world n) n runs = Raise ZeroDivisionError) /\
  main world runs = Ok ([], None).
Proof.
  intros Hruns Hexn.
  assert (forall n, exists e, benchmark (world n) n runs = Raise e /\
            (Llama (world n) = Raise e \/ warmup (world n) = Raise e \/
             e = ZeroDivisionError)) as Hfail.
  { intros n. unfold benchmark.
    destruct (Llama (world n)) as [lt|e]; [|exists e; auto].
    destruct (warmup (world n)) as [u|e]; [|exists e; auto].
    replace (Z.to_nat runs) with 0%nat by lia. simpl.
    exists ZeroDivisionError. auto. }
  split.
  - intros n [lt Hlt] Hw. destruct (Hfail n) as (e & -> & [H | [H | ->]]);
      [congruence|congruence|reflexivity].
  - unfold main. rewrite run_benchmarks_succeeded.
    + assert (succeeded world runs thread_counts = []) as ->; [|reflexivity].
      unfold succeeded. clear Hexn. generalize thread_counts as counts.
      intros counts. induction counts as [|n rest IH]; [reflexivity|].
      simpl. destruct (Hfail n) as (e & -> & _). exact IH.
    + intros n e Hn Hb. destruct (Hfail n) as (e' & Hb' & Hcause).
      rewrite Hb in Hb'. injection Hb' as <-.
      destruct Hcause as [H | [H | ->]]; [eapply Hexn; eauto..|reflexivity].
Qed.

Lemma main_without_runs_witness :
  main lab_world 0 = Ok ([], None) /\
  benchmark (lab_world 8) 8 0 = Raise ZeroDivisionError.
Proof.
  destruct (main_without_runs lab_world 0) as [Hb Hmain].
  - lia.
  - intros n e Hn.
    repeat (destruct Hn as [<-|Hn];
            [vm_compute; intros [H|H]; try discriminate H;
             injection H as <-; reflexivity|]).
    destruct Hn.
  - split; [exact Hmain|]. apply Hb; [|reflexivity].
    eexists. reflexivity.
Defined.

(** When every timed call returns, the loop can only fail on a zero
    duration, and it does fail when one of the calls takes none. *)
Lemma run_loop_zero_duration (T : Trial) (i : nat) (range : list nat) :
  forall acc : list Q * list Q,
  (forall j, In j range -> exists dt text, timed_run T j = Ok (dt, text)) ->
  In i range ->
  (exists dt text, timed_run T i = Ok (dt, text) /\ dt == 0) ->
  run_loop T acc range = Raise ZeroDivisionError.
Proof.
  induction range as [|j rest IH]; intros acc Hall Hin Hzero; [destruct Hin|].
  simpl. unfold run_step at 1.
  destruct (Hall j (or_introl eq_refl)) as (dt & text & Hj). rewrite Hj.
  unfold truediv. destruct (Qeq_bool dt 0) eqn:Hdt; [reflexivity|].
  apply IH; [intros k Hk; apply Hall; now right| |exact Hzero].
  destruct Hin as [->|Hin]; [|exact Hin]. exfalso.
  destruct Hzero as (dt' & text' & Hi & Hz). rewrite Hj in Hi.
  injection Hi as <- _. apply Qeq_bool_iff in Hz. congruence.
Qed.

(** X18.  A timed call whose measured duration is zero makes the
    candidate fail with [ZeroDivisionError], in the line that prints its
    speed; the model having loaded and every timed call having returned
    does not help. *)
Theorem benchmark_zero_duration (T : Trial) (n runs : Z) (i : nat) :
  (exists load_time, Llama T = Ok load_time) ->
  (exists u, warmup T = Ok u) ->
  (forall j, (j < Z.to_nat runs)%nat ->
     exists dt text, timed_run T j = Ok (dt, text)) ->
  (i < Z.to_nat runs)%nat ->
  (exists dt text, timed_run T i = Ok (dt, text) /\ dt == 0) ->
  benchmark T n runs = Raise ZeroDivisionError.
Proof.
  intros [load_time Hload] [u Hwarm] Hall Hi Hzero.
  unfold benchmark. rewrite Hload, Hwarm.
  rewrite (run_loop_zero_duration T i); [reflexivity| | |exact Hzero].
  - intros j Hj. apply Hall. apply in_seq in Hj. lia.
  - apply in_seq. lia.
Qed.

Lemma benchmark_zero_duration_witness :
  benchmark (tie_world 6) 6 2 = Raise ZeroDivisionError /\
  List.map threads
    match main tie_world 2 with Ok (results, _) => results | Raise _ => [] end
  = [4; 8; 10; 12]%Z.
Proof.
  split; [|reflexivity].
  apply (benchmark_zero_duration (tie_world 6) 6 2 1).
  - eexists. reflexivity.
  - eexists. reflexivity.
  - intros [|[|j]] Hj; [eexists; eexists; reflexivity..|simpl in Hj; lia].
  - simpl. lia.
  - eexists. eexists. split; reflexivity.
Defined.

(** From a current best [b0], the loop keeps [b0] unless an entry is
    strictly faster, and then takes the first of the fastest entries. *)
Lemma fold_pick_best_first (results : list Stats) :
  forall b0 b : Stats,
  fold_left pick_best results (Some b0) = Some b ->
  (b = b0 /\ forall r, In r results -> avg_time b0 <= avg_time r) \/
  (exists l1 l2, results = (l1 ++ b :: l2)%list /\
     avg_time b < avg_time b0 /\
     (forall r, In r l1 -> avg_time b < avg_time r) /\
     (forall r, In r l2 -> avg_time b <= avg_time r)).
Proof.
  induction results as [|r rest IH]; intros b0 b; simpl.
  - intros [= <-]. left. split; [reflexivity|intros r []].
  - destruct (Qltb (avg_time r) (avg_time b0)) eqn:Hlt; intros Hfold.
    + apply Qltb_true in Hlt. right.
      destruct (IH r b Hfold) as [[-> Hall]|(l1 & l2 & -> & Hb & H1 & H2)].
      * exists [], rest. split; [reflexivity|]. split; [exact Hlt|].
        split; [intros r' []|exact Hall].
      * exists (r :: l1), l2. split; [reflexivity|].
        split; [eapply Qlt_trans; eassumption|].
        split; [|exact H2]. intros r' [<-|Hr']; [exact Hb|now apply H1].
    + apply Qltb_false in Hlt.
      destruct (IH b0 b Hfold) as [[-> Hall]|(l1 & l2 & -> & Hb & H1 & H2)].
      * left. split; [reflexivity|].
        intros r' [<-|Hr']; [exact Hlt|now apply Hall].
      * right. exists (r :: l1), l2. split; [reflexivity|].
        split; [exact Hb|]. split; [|exact H2].
        intros r' [<-|Hr']; [|now apply H1].
        eapply Qlt_le_trans; eassumption.
Qed.

(** X19.  The recommendation is the first of the fastest candidates:
    every entry of the summary before it has a strictly larger mean
    duration, and every entry after it a mean duration at least as
    large, so a tie goes to the smaller thread count. *)
Theorem recommendation_is_first_fastest (world : Z -> Trial) (runs : Z)
    (results : list Stats) (b : Stats) :
  main world runs = Ok (results, Some b) ->
  exists l1 l2,
    results = (l1 ++ b :: l2)%list /\
    (forall r, In r l1 -> avg_time b < avg_time r) /\
    (forall r, In r l2 -> avg_time b <= avg_time r).
Proof.
  unfold main.
  destruct (run_benchmarks world runs [] thread_counts) as [rs|];
    [|discriminate].
  intros [= <- Hbest]. destruct rs as [|r rest]; [discriminate|].
  simpl in Hbest.
  destruct (fold_pick_best_first rest r b Hbest)
    as [[-> Hall]|(l1 & l2 & -> & Hb & H1 & H2)].
  - exists [], rest. split; [reflexivity|]. split; [intros r' []|exact Hall].
  - exists (r :: l1), l2. split; [reflexivity|]. split; [|exact H2].
    intros r' [<-|Hr']; [exact Hb|now apply H1].
Qed.

Lemma recommendation_is_first_fastest_witness :
  exists results b,
    main tie_world 2 = Ok (results, Some b) /\
    List.map threads results = [4; 8; 10; 12]%Z /\
    threads b = 8%Z /\
    List.map (fun r => Qeq_bool (avg_time r) (avg_time b)) results
      = [false; true; false; true].
Proof.
  destruct (main tie_world 2) as [[results [b|]]|] eqn:Hmain;
    [|vm_compute in Hmain; discriminate Hmain..].
  destruct (recommendation_is_first_fastest tie_world 2 results b Hmain)
    as (l1 & l2 & _).
  exists results, b. split; [reflexivity|].
  vm_compute in Hmain. injection Hmain as <- <-. repeat split.
Defined.

End BenchRunFacts.

(** ** Thread settings *)

Module ThreadFacts.
Import Py RagServer.

(** X20.  [set_threads(n)] sets the four thread variables to [str(n)] and
    no other variable; a second call replaces what the first one set, so
    the environment depends on the last call only. *)
Theorem set_threads_sets_four (n m : Z) (environ : gmap string string)
    (name : string) :
  set_threads n environ !! name =
    (if bool_decide (name ∈ ["OMP_NUM_THREADS"; "MKL_NUM_THREADS";
                             "OPENBLAS_NUM_THREADS"; "NUMEXPR_NUM_THREADS"])
     then Some (str n)
     else environ !! name) /\
  set_threads m (set_threads n environ) = set_threads m environ.
Proof.
  split.
  - unfold set_threads.
    destruct (decide (name ∈ ["OMP_NUM_THREADS"; "MKL_NUM_THREADS";
                              "OPENBLAS_NUM_THREADS"; "NUMEXPR_NUM_THREADS"]))
      as [Hin|Hout].
    + rewrite (bool_decide_eq_true_2 _ Hin).
      rewrite !elem_of_cons, elem_of_nil in Hin.
      destruct Hin as [->|[->|[->|[->|[]]]]];
        rewrite !lookup_insert; repeat case_decide; congruence.
    + rewrite (bool_decide_eq_false_2 _ Hout).
      rewrite !elem_of_cons, elem_of_nil in Hout.
      rewrite !lookup_insert_ne by (intros <-; tauto). reflexivity.
  - apply map_eq. intros k. unfold set_threads. rewrite !lookup_insert.
    repeat case_decide; reflexivity.
Qed.

End ThreadFacts.
